(** * ailang transpiler: the line parser and the two emitters of
    [src/transpiler.cpp], embedded as Rocq functions.

    The program reads a model description line by line with
    [std::getline], classifies each line with [line.find(kw) == 0], pulls the
    values out of it with chained [operator>>] on a [std::istringstream], and
    writes the forward pass of the network as text.

    Conventions of the embedding:
    - [std::string] is [string]; [int] is a [Z] kept inside the 32-bit range by
      the extraction operator; [size_t] loop counters are [nat];
    - an input stream is its unread characters together with its [eofbit] and
      [failbit] ([badbit] is never raised by a string or file read here);
    - an output stream is the text written so far;
    - a local [int] declared without initialiser holds no specified value: the
      parser takes the value found there as a parameter. *)

From Stdlib Require Import String Ascii List ZArith Bool Lia Arith DecimalString.
From Stdlib Require DecimalPos.
Import ListNotations.

Open Scope string_scope.
Open Scope Z_scope.

(** ** Input streams *)

Record istream := mkIstream {
  buf : string;
  eofbit : bool;
  failbit : bool
}.

Definition istringstream (s : string) : istream := mkIstream s false false.

Definition good (s : istream) : bool := negb (eofbit s) && negb (failbit s).

(** [std::isspace] in the "C" locale: HT, LF, VT, FF, CR and space. *)
Definition isspace (c : ascii) : bool :=
  let n := nat_of_ascii c in
  ((9 <=? n) && (n <=? 13))%nat || (n =? 32)%nat.

Definition isdigit (c : ascii) : bool :=
  let n := nat_of_ascii c in ((48 <=? n) && (n <=? 57))%nat.

Definition digit_val (c : ascii) : Z := Z.of_nat (nat_of_ascii c) - 48.

Fixpoint skipws (s : string) : string :=
  match s with
  | String c r => if isspace c then skipws r else s
  | EmptyString => EmptyString
  end.

(** The [sentry] every formatted extraction builds first (with [skipws] set):
    a stream that is not good only gets [failbit]; a good stream drops its
    leading white space, and running into the end while doing so raises
    [eofbit] and [failbit]. *)
Definition sentry (s : istream) : bool * istream :=
  if good s then
    match skipws (buf s) with
    | EmptyString => (false, mkIstream EmptyString true true)
    | rest => (true, mkIstream rest false false)
    end
  else (false, mkIstream (buf s) (eofbit s) true).

(** Longest prefix without white space, and what follows it. *)
Fixpoint span_word (s : string) : string * string :=
  match s with
  | String c r =>
      if isspace c then (EmptyString, s)
      else let '(w, rest) := span_word r in (String c w, rest)
  | EmptyString => (EmptyString, EmptyString)
  end.

Definition is_empty (s : string) : bool :=
  match s with EmptyString => true | _ => false end.

(** [is >> str] for a [std::string]: when the sentry fails [str] keeps its
    old content; otherwise it is erased and receives the next word, and
    [eofbit] is raised when the word ran up to the end of the stream. *)
Definition get_string (s : istream) (old : string) : string * istream :=
  let '(ok, s1) := sentry s in
  if ok then
    let '(w, rest) := span_word (buf s1) in
    (w, mkIstream rest (is_empty rest) (is_empty w))
  else (old, s1).

Definition INT_MAX : Z := 2147483647.
Definition INT_MIN : Z := -2147483648.

(** Digits of a decimal field: the accumulated value, whether a digit was
    seen, and the rest. *)
Fixpoint span_digits (acc : Z) (seen : bool) (s : string) : Z * bool * string :=
  match s with
  | String c r =>
      if isdigit c then span_digits (10 * acc + digit_val c) true r
      else (acc, seen, s)
  | EmptyString => (acc, seen, EmptyString)
  end.

(** [num_get] for a decimal [int]: an optional sign, then digits.  No digit:
    zero is stored and [failbit] raised.  A value outside [int]: the nearest
    bound is stored and [failbit] raised.  [eofbit] when the field ran up to
    the end. *)
Definition num_get (s : string) : Z * bool * string :=
  let '(neg, body) :=
    match s with
    | String "-" r => (true, r)
    | String "+" r => (false, r)
    | _ => (false, s)
    end in
  let '(mag, seen, rest) := span_digits 0 false body in
  if seen then
    let v := if neg then - mag else mag in
    if v <? INT_MIN then (INT_MIN, true, rest)
    else if INT_MAX <? v then (INT_MAX, true, rest)
    else (v, false, rest)
  else (0, true, rest).

(** [is >> n] for an [int]: untouched when the sentry fails. *)
Definition get_int (s : istream) (old : Z) : Z * istream :=
  let '(ok, s1) := sentry s in
  if ok then
    let '(v, fail, rest) := num_get (buf s1) in
    (v, mkIstream rest (is_empty rest) fail)
  else (old, s1).

(** The lines [while (std::getline(in, line))] hands to the loop body: the
    text is cut at every LF, the LF is dropped, and a last piece is handed
    over only if it holds at least one character. *)
Fixpoint getlines (text : string) : list string :=
  match text with
  | EmptyString => []
  | String c r =>
      if Ascii.eqb c "010" then EmptyString :: getlines r
      else match getlines r with
           | [] => [String c EmptyString]
           | l :: ls => String c l :: ls
           end
  end.

(** Characters up to the first LF, and what follows that LF ([None] when
    the text ends before one). *)
Fixpoint span_line (s : string) : string * option string :=
  match s with
  | EmptyString => (EmptyString, None)
  | String c r =>
      if Ascii.eqb c "010" then (EmptyString, Some r)
      else let '(l, rest) := span_line r in (String c l, rest)
  end.

(** One [std::getline(in, line)]: a stream that is not good only gets
    [failbit]; otherwise the line is erased and filled up to the LF, which is
    taken out of the stream, or up to the end, which raises [eofbit], and
    [failbit] as well when nothing at all was taken. *)
Definition getline (s : istream) (old : string) : string * istream :=
  if good s then
    match span_line (buf s) with
    | (l, Some rest) => (l, mkIstream rest false false)
    | (l, None) => (l, mkIstream EmptyString true (is_empty l))
    end
  else (old, mkIstream (buf s) (eofbit s) true).

(** The values [line] takes in the body of
    [while (std::getline(in, line))], for at most [fuel] turns. *)
Fixpoint getline_loop (fuel : nat) (s : istream) (line : string) : list string :=
  match fuel with
  | O => []
  | S fuel' =>
      let '(line, s) := getline s line in
      if failbit s then [] else line :: getline_loop fuel' s line
  end.

(** [hay.find(needle)]: position of the first occurrence, [None] for
    [npos]. *)
Definition find (hay needle : string) : option nat := String.index 0 needle hay.

Definition find_at_0 (hay needle : string) : bool :=
  match find hay needle with
  | Some O => true
  | _ => false
  end.

(** ** The parse loop of [main] (and of [testParser]) *)

Record parse_state := mkParse {
  modelName : string;
  inputSize : Z;
  layers : list (Z * string)
}.

Definition parse_init : parse_state := mkParse EmptyString 0 [].

(** One pass through the loop body.  [units0] stands for the content of the
    uninitialised local [int units]. *)
Definition process_line (units0 : Z) (st : parse_state) (line : string)
  : parse_state :=
  let iss := istringstream line in
  let key := EmptyString in
  if find_at_0 line "model" then
    let '(key, iss) := get_string iss key in
    let '(name, iss) := get_string iss (modelName st) in
    mkParse name (inputSize st) (layers st)
  else if find_at_0 line "input" then
    let '(key, iss) := get_string iss key in
    let '(key, iss) := get_string iss key in
    let '(key, iss) := get_string iss key in
    let '(size, iss) := get_int iss (inputSize st) in
    mkParse (modelName st) size (layers st)
  else if find_at_0 line "layer" then
    let units := units0 in
    let activation := EmptyString in
    let '(key, iss) := get_string iss key in
    let '(key, iss) := get_string iss key in
    let '(units, iss) := get_int iss units in
    let '(key, iss) := get_string iss key in
    let '(key, iss) := get_string iss key in
    let '(activation, iss) := get_string iss activation in
    mkParse (modelName st) (inputSize st) (layers st ++ [(units, activation)])
  else st.

(** The loop: [uninit k] is what the [k]-th pass finds in [units]. *)
Fixpoint parse_from (uninit : nat -> Z) (k : nat) (st : parse_state)
    (ls : list string) : parse_state :=
  match ls with
  | [] => st
  | l :: rest => parse_from uninit (S k) (process_line (uninit k) st l) rest
  end.

Definition parse_lines (uninit : nat -> Z) (ls : list string) : parse_state :=
  parse_from uninit 0 parse_init ls.

Definition parse (uninit : nat -> Z) (text : string) : parse_state :=
  parse_lines uninit (getlines text).

(** The condition [main] tests before it generates:
    [!modelName.empty() && inputSize > 0 && !layers.empty()]. *)
Definition valid (st : parse_state) : bool :=
  negb (is_empty (modelName st)) && (0 <? inputSize st)
  && negb (match layers st with [] => true | _ => false end).

(** ** Output streams *)

Definition nl : string := String "010" EmptyString.
Definition dq : string := String "034" EmptyString.

(** [os << x] appends to the text written so far. *)
Definition put (os x : string) : string := os ++ x.
Infix "<<" := put (at level 50, left associativity).

(** Decimal output of a [size_t] and of an [int]. *)
Definition show_size (n : nat) : string := NilZero.string_of_uint (Nat.to_uint n).
Definition show_int (z : Z) : string := NilZero.string_of_int (Z.to_int z).

(** [layers[i]] for an index in range. *)
Definition layer_at (layers : list (Z * string)) (i : nat) : Z * string :=
  nth i layers (0, EmptyString).

(** [for (size_t i = 0; i < n; ++i) body]. *)
Definition for_range (n : nat) (body : string -> nat -> string) (os : string)
  : string :=
  fold_left body (seq 0 n) os.

Definition relu_lit : string := dq ++ "relu" ++ dq.
Definition sigmoid_lit : string := dq ++ "sigmoid" ++ dq.

(** ** [generateModelClass]: the Eigen emitter *)

Definition eigen_layer (layers : list (Z * string)) (outFile : string) (i : nat)
  : string :=
  let '(units, activation) := layer_at layers i in
  let outFile := outFile << "        // Layer " << show_size (i + 1) << nl in
  let outFile := outFile << "        Eigen::MatrixXd W" << show_size (i + 1)
                         << " = Eigen::MatrixXd::Random(" << show_int units
                         << ", x.cols());" << nl in
  let outFile := outFile << "        Eigen::VectorXd b" << show_size (i + 1)
                         << " = Eigen::VectorXd::Random(" << show_int units
                         << ");" << nl in
  let outFile := outFile << "        x = (W" << show_size (i + 1)
                         << " * x).colwise() + b" << show_size (i + 1)
                         << ";" << nl in
  let outFile :=
    if (activation =? relu_lit)%string then
      outFile << "        x = x.cwiseMax(0.0);" << nl
    else if (activation =? sigmoid_lit)%string then
      outFile << "        x = 1.0 / (1.0 + (-x.array()).exp());" << nl
    else outFile in
  outFile << nl.

(** The text the function leaves in its [std::ofstream]. *)
Definition generateModelClass_text (modelName : string) (inputSize : Z)
    (layers : list (Z * string)) : string :=
  let outFile := EmptyString in
  let outFile := outFile << "#include <Eigen/Dense>" << nl << nl in
  let outFile := outFile << "class " << modelName << " {" << nl in
  let outFile := outFile << "public:" << nl in
  let outFile := outFile << "    " << modelName << "() {}" << nl << nl in
  let outFile := outFile
      << "    Eigen::MatrixXd forward(const Eigen::MatrixXd& input) {" << nl in
  let outFile := outFile << "        Eigen::MatrixXd x = input;" << nl in
  let outFile := for_range (length layers) (eigen_layer layers) outFile in
  let outFile := outFile << "        return x;" << nl in
  let outFile := outFile << "    }" << nl in
  outFile << "};" << nl.

(** Files by path: [content] is what a path holds, if it can be read, and
    [creatable] is the answer of the environment to opening a path for
    writing (a missing directory, a directory in the place of the file or a
    refused permission make it [false]). *)
Record filesystem := mkFs {
  content :> string -> option string;
  creatable : string -> bool
}.

(** A file opened for writing starts afresh and ends up with the text
    written to it. *)
Definition write_file (fs : filesystem) (path text : string) : filesystem :=
  mkFs (fun p => if (p =? path)%string then Some text else fs p)
       (creatable fs).

(** The path a [std::string] hands to the system: its [c_str()], which ends
    before the first NUL. *)
Fixpoint c_str (s : string) : string :=
  match s with
  | EmptyString => EmptyString
  | String c r => if Ascii.eqb c "000" then EmptyString else String c (c_str r)
  end.

(** [std::ofstream outFile(modelName + ".cpp")] is never tested: when the
    file does not open every [<<] is lost and no file changes. *)
Definition generateModelClass (modelName : string) (inputSize : Z)
    (layers : list (Z * string)) (fs : filesystem) : filesystem :=
  let path := c_str (modelName ++ ".cpp") in
  if creatable fs path then
    write_file fs path (generateModelClass_text modelName inputSize layers)
  else fs.

(** ** The numpy emitter of [testPythonTranspilation]

    The source builds the text for three local constants; the emitter is
    embedded with these as arguments and the test instantiates them. *)

Definition python_init (inputSize : Z) (layers : list (Z * string))
    (pythonCode : string) (i : nat) : string :=
  let pythonCode := pythonCode << "        self.W" << show_size (i + 1)
      << " = np.random.rand(" << show_int (fst (layer_at layers i)) << ", "
      << show_int (if (i =? 0)%nat then inputSize
                   else fst (layer_at layers (i - 1)))
      << ")" << nl in
  pythonCode << "        self.b" << show_size (i + 1) << " = np.random.rand("
             << show_int (fst (layer_at layers i)) << ")" << nl.

Definition python_forward (layers : list (Z * string)) (pythonCode : string)
    (i : nat) : string :=
  let pythonCode := pythonCode << "        x = np.dot(self.W" << show_size (i + 1)
      << ", x) + self.b" << show_size (i + 1) << nl in
  if (snd (layer_at layers i) =? relu_lit)%string then
    pythonCode << "        x = np.maximum(0, x)" << nl
  else if (snd (layer_at layers i) =? sigmoid_lit)%string then
    pythonCode << "        x = 1 / (1 + np.exp(-x))" << nl
  else pythonCode.

Definition pythonCode (modelName : string) (inputSize : Z)
    (layers : list (Z * string)) : string :=
  let pythonCode := EmptyString in
  let pythonCode := pythonCode << "import numpy as np" << nl << nl in
  let pythonCode := pythonCode << "class " << modelName << ":" << nl in
  let pythonCode := pythonCode << "    def __init__(self):" << nl in
  let pythonCode :=
    for_range (length layers) (python_init inputSize layers) pythonCode in
  let pythonCode := pythonCode << nl << "    def forward(self, x):" << nl in
  let pythonCode := pythonCode << "        x = np.array(x)" << nl in
  let pythonCode :=
    for_range (length layers) (python_forward layers) pythonCode in
  pythonCode << "        return x" << nl.

(** ** The two built-in checks *)

Definition sp4 : string := "    ".

(** The raw string literal of [testParser]. *)
Definition testInput : string :=
  nl ++
  sp4 ++ sp4 ++ "model TestModel {" ++ nl ++
  sp4 ++ sp4 ++ sp4 ++ "input: size=4" ++ nl ++
  sp4 ++ sp4 ++ sp4 ++ "layer: units=8, activation=" ++ relu_lit ++ nl ++
  sp4 ++ sp4 ++ sp4 ++ "layer: units=2, activation=" ++ sigmoid_lit ++ nl ++
  sp4 ++ sp4 ++ "}" ++ nl ++
  sp4.

(** The conjunction of the five [assert]s of [testParser]; each [&&] is
    lazy as a sequence of asserts is. *)
Definition testParser_asserts (uninit : nat -> Z) : bool :=
  let st := parse uninit testInput in
  (modelName st =? "TestModel")%string
  && (inputSize st =? 4)
  && (length (layers st) =? 2)%nat
  && ((fst (layer_at (layers st) 0) =? 8)
      && (snd (layer_at (layers st) 0) =? relu_lit)%string)
  && ((fst (layer_at (layers st) 1) =? 2)
      && (snd (layer_at (layers st) 1) =? sigmoid_lit)%string).

(** What a check leaves on [std::cout], or [None] when an [assert] stops the
    program.  [ndebug] tells whether the build defines [NDEBUG]. *)
Definition testParser (ndebug : bool) (uninit : nat -> Z) : option string :=
  if ndebug || testParser_asserts uninit
  then Some ("Parser test passed." ++ nl) else None.

Definition test_layers : list (Z * string) := [(8, relu_lit); (2, sigmoid_lit)].

Definition testPython_asserts : bool :=
  let code := pythonCode "TestModel" 4 test_layers in
  match find code "class TestModel" with Some _ => true | None => false end
  && match find code "def forward" with Some _ => true | None => false end.

Definition testPythonTranspilation (ndebug : bool) : option string :=
  if ndebug || testPython_asserts
  then Some ("Python transpilation test passed." ++ nl) else None.

(** ** [main] *)

Inductive status := Exit (code : Z) | Aborted.

Record run := mkRun {
  exit_status : status;
  cout : string;
  cerr : string;
  files : filesystem
}.

(** [argv] is the whole argument vector, program name first, so that
    [argc == 2] reads [argv = [prog; path]].  [cerr] holds the diagnostics
    the program writes itself. *)
Definition main (ndebug : bool) (uninit : nat -> Z) (argv : list string)
    (fs : filesystem) : run :=
  match argv with
  | [_; path] =>
      match fs path with
      | None =>
          mkRun (Exit 1) EmptyString
                (EmptyString << "Error: Could not open file " << path << nl) fs
      | Some text =>
          let st := parse uninit text in
          if valid st then
            mkRun (Exit 0)
                  (EmptyString << "Model class generated successfully: "
                               << modelName st << ".cpp" << nl)
                  EmptyString
                  (generateModelClass (modelName st) (inputSize st) (layers st) fs)
          else
            mkRun (Exit 1) EmptyString
                  (EmptyString << "Error: Invalid input format." << nl) fs
      end
  | _ =>
      match testParser ndebug uninit with
      | None => mkRun Aborted EmptyString EmptyString fs
      | Some out1 =>
          match testPythonTranspilation ndebug with
          | None => mkRun Aborted out1 EmptyString fs
          | Some out2 => mkRun (Exit 0) (out1 << out2) EmptyString fs
          end
      end
  end.

(** ** Sample documents *)

(** Scenario 1 of the specification, flush left. *)
Definition scenario1 : string :=
  "model TestModel {" ++ nl ++
  "input: size=4" ++ nl ++
  "layer: units=8, activation=" ++ relu_lit ++ nl ++
  "layer: units=2, activation=" ++ sigmoid_lit ++ nl ++
  "}" ++ nl.

(** The same model with the values standing as words of their own, the
    shape the positional extraction expects. *)
Definition spaced1 : string :=
  "model TestModel {" ++ nl ++
  "input: size = 4" ++ nl ++
  "layer: units= 8 , activation= " ++ relu_lit ++ nl ++
  "layer: units= 2 , activation= " ++ sigmoid_lit ++ nl ++
  "}" ++ nl.

(** A model whose input size is declared twice and whose name is declared
    twice. *)
Definition duplicates : string :=
  "model First {" ++ nl ++
  "input: size = 3" ++ nl ++
  "model Second {" ++ nl ++
  "input: size = 5" ++ nl ++
  "layer: units= 8 , activation= " ++ relu_lit ++ nl ++
  "}" ++ nl.

(** A model whose only layer line is glued together. *)
Definition glued_layer : string :=
  "model M {" ++ nl ++
  "input: size = 4" ++ nl ++
  "layer: units=8, activation=" ++ relu_lit ++ nl ++
  "}" ++ nl.

(** A layer line whose unit count does not fit an [int]. *)
Definition huge_units_line : string :=
  "layer: units= 99999999999 , activation= " ++ relu_lit.

(** No [/] anywhere. *)
Fixpoint no_slash (s : string) : bool :=
  match s with
  | EmptyString => true
  | String c r => negb (Ascii.eqb c "/") && no_slash r
  end.

(** A directory without subdirectories holding one file: a file can be
    created there under any name that is not empty and has no [/]. *)
Definition one_file (path text : string) : filesystem :=
  mkFs (fun p => if (p =? path)%string then Some text else None)
       (fun p => negb (is_empty p) && no_slash p).



(** ** What a line carries

    The value a chain of extractions stores, when it stores one: [None]
    stands for a final [operator>>] whose sentry failed, which leaves the
    variable as it was. *)

Definition skip_keys (n : nat) (line : string) : istream :=
  Nat.iter n (fun iss => snd (get_string iss EmptyString)) (istringstream line).

(** [iss >> key >> modelName]. *)
Definition line_name (line : string) : option string :=
  let '(ok, iss) := sentry (skip_keys 1 line) in
  if ok then Some (fst (span_word (buf iss))) else None.

(** The integer field reached after [n] keys, with the [failbit] its
    conversion raises. *)
Definition line_int (n : nat) (line : string) : option (Z * bool) :=
  let '(ok, iss) := sentry (skip_keys n line) in
  if ok then let '(v, fail, _) := num_get (buf iss) in Some (v, fail)
  else None.

(** [iss >> key >> key >> key >> inputSize]. *)
Definition line_size (line : string) : option Z :=
  option_map fst (line_int 3 line).

(** The text [iss >> units] converts: what follows two keys and white
    space, when something does. *)
Definition units_field (line : string) : option string :=
  let '(ok, iss) := sentry (skip_keys 2 line) in
  if ok then Some (buf iss) else None.

(** The number a field starts with: an optional sign and the digits after
    it, [None] when there is no digit. *)
Definition field_number (s : string) : option Z :=
  let '(neg, body) :=
    match s with
    | String "-" r => (true, r)
    | String "+" r => (false, r)
    | _ => (false, s)
    end in
  let '(mag, seen, _) := span_digits 0 false body in
  if seen then Some (if neg then - mag else mag) else None.

(** [iss.fail()] once [iss >> key >> key >> units] has run. *)
Definition units_extraction_fails (line : string) : bool :=
  failbit (snd (get_int (skip_keys 2 line) 0)).

(** ** The emitted text, layer by layer

    The reading of the generated text the specification gives: a prologue, one
    block per layer made of the affine step followed by the expression of
    the layer's activation kind, and an epilogue. *)

Inductive ActivationKind := ReLU | Sigmoid | Identity.

Definition activation_kind (a : string) : ActivationKind :=
  if (a =? relu_lit)%string then ReLU
  else if (a =? sigmoid_lit)%string then Sigmoid
  else Identity.

Definition eigen_prologue (name : string) : string :=
  "#include <Eigen/Dense>" ++ nl ++ nl ++
  "class " ++ name ++ " {" ++ nl ++
  "public:" ++ nl ++
  "    " ++ name ++ "() {}" ++ nl ++ nl ++
  "    Eigen::MatrixXd forward(const Eigen::MatrixXd& input) {" ++ nl ++
  "        Eigen::MatrixXd x = input;" ++ nl.

Definition eigen_epilogue : string :=
  "        return x;" ++ nl ++ "    }" ++ nl ++ "};" ++ nl.

(** Weight and bias of layer [k] (counted from 1) and the affine step. *)
Definition eigen_affine (k : nat) (u : Z) : string :=
  "        // Layer " ++ show_size k ++ nl ++
  "        Eigen::MatrixXd W" ++ show_size k ++ " = Eigen::MatrixXd::Random("
    ++ show_int u ++ ", x.cols());" ++ nl ++
  "        Eigen::VectorXd b" ++ show_size k ++ " = Eigen::VectorXd::Random("
    ++ show_int u ++ ");" ++ nl ++
  "        x = (W" ++ show_size k ++ " * x).colwise() + b" ++ show_size k
    ++ ";" ++ nl.

Definition eigen_activation (a : ActivationKind) : string :=
  match a with
  | ReLU => "        x = x.cwiseMax(0.0);" ++ nl
  | Sigmoid => "        x = 1.0 / (1.0 + (-x.array()).exp());" ++ nl
  | Identity => EmptyString
  end.

Fixpoint eigen_blocks (k : nat) (ls : list (Z * string)) : string :=
  match ls with
  | [] => EmptyString
  | (u, a) :: rest =>
      eigen_affine k u ++ eigen_activation (activation_kind a) ++ nl
      ++ eigen_blocks (S k) rest
  end.

Definition python_prologue (name : string) : string :=
  "import numpy as np" ++ nl ++ nl ++
  "class " ++ name ++ ":" ++ nl ++
  "    def __init__(self):" ++ nl.

(** Weight of shape [(u, cols)] and bias of shape [(u)] for layer [k]. *)
Definition python_decl (k : nat) (u cols : Z) : string :=
  "        self.W" ++ show_size k ++ " = np.random.rand(" ++ show_int u
    ++ ", " ++ show_int cols ++ ")" ++ nl ++
  "        self.b" ++ show_size k ++ " = np.random.rand(" ++ show_int u
    ++ ")" ++ nl.

(** The declarations in order; [cols] is the unit count of the layer
    before, the input size for the first. *)
Fixpoint python_decls (k : nat) (cols : Z) (ls : list (Z * string)) : string :=
  match ls with
  | [] => EmptyString
  | (u, _) :: rest => python_decl k u cols ++ python_decls (S k) u rest
  end.

Definition python_affine (k : nat) : string :=
  "        x = np.dot(self.W" ++ show_size k ++ ", x) + self.b" ++ show_size k
    ++ nl.

Definition python_activation (a : ActivationKind) : string :=
  match a with
  | ReLU => "        x = np.maximum(0, x)" ++ nl
  | Sigmoid => "        x = 1 / (1 + np.exp(-x))" ++ nl
  | Identity => EmptyString
  end.

Fixpoint python_steps (k : nat) (ls : list (Z * string)) : string :=
  match ls with
  | [] => EmptyString
  | (_, a) :: rest =>
      python_affine k ++ python_activation (activation_kind a)
      ++ python_steps (S k) rest
  end.

Definition python_middle : string :=
  nl ++ "    def forward(self, x):" ++ nl ++ "        x = np.array(x)" ++ nl.

Definition python_epilogue : string := "        return x" ++ nl.

(** ** Outcome of a run *)

(** A run succeeds when it was asked to translate a readable file whose
    parse passes the check, or when it was asked to check itself and no
    [assert] stopped it. *)
Definition run_succeeds (ndebug : bool) (uninit : nat -> Z)
    (argv : list string) (fs : filesystem) : Prop :=
  match argv with
  | [_; path] =>
      exists text, fs path = Some text /\ valid (parse uninit text) = true
  | _ =>
      ndebug = true
      \/ (testParser_asserts uninit = true /\ testPython_asserts = true)
  end.

(** ** Shapes of lines and documents

    Vocabulary for statements about families of inputs. *)

(** No white space anywhere. *)
Fixpoint no_space (s : string) : bool :=
  match s with
  | EmptyString => true
  | String c r => negb (isspace c) && no_space r
  end.

(** Nothing but white space. *)
Fixpoint all_space (s : string) : bool :=
  match s with
  | EmptyString => true
  | String c r => isspace c && all_space r
  end.

(** A word as [operator>>] delivers it: not empty, no white space. *)
Definition is_word (s : string) : bool := negb (is_empty s) && no_space s.

Fixpoint no_nul (s : string) : bool :=
  match s with
  | EmptyString => true
  | String c r => negb (Ascii.eqb c "000") && no_nul r
  end.

Fixpoint no_lf (s : string) : bool :=
  match s with
  | EmptyString => true
  | String c r => negb (Ascii.eqb c "010") && no_lf r
  end.

(** The text whose lines are [ls], each closed by LF. *)
Fixpoint join_lines (ls : list string) : string :=
  match ls with
  | [] => EmptyString
  | l :: rest => l ++ nl ++ join_lines rest
  end.

(** A line one of the three branches of the loop body takes. *)
Definition recognised (line : string) : bool :=
  find_at_0 line "model" || find_at_0 line "input" || find_at_0 line "layer".

(** A line the loop body skips because of its first character. *)
Definition blank_or_indented (line : string) : bool :=
  match line with
  | EmptyString => true
  | String c _ => isspace c
  end.

(** A line on which the uninitialised [units] cannot show: not a [layer]
    line, or one whose extraction reaches the unit count. *)
Definition units_reached (line : string) : bool :=
  negb (find_at_0 line "layer")
  || match line_int 2 line with Some _ => true | None => false end.

Definition in_int (v : Z) : bool := (INT_MIN <=? v) && (v <=? INT_MAX).

(** The value an [int] extraction keeps of a written number. *)
Definition saturate (v : Z) : Z :=
  if v <? INT_MIN then INT_MIN else if INT_MAX <? v then INT_MAX else v.

(** The value of a digit sequence read after [acc], first digit first. *)
Fixpoint uint_value (acc : Z) (d : Decimal.uint) : Z :=
  match d with
  | Decimal.Nil => acc
  | Decimal.D0 d => uint_value (10 * acc + 0) d
  | Decimal.D1 d => uint_value (10 * acc + 1) d
  | Decimal.D2 d => uint_value (10 * acc + 2) d
  | Decimal.D3 d => uint_value (10 * acc + 3) d
  | Decimal.D4 d => uint_value (10 * acc + 4) d
  | Decimal.D5 d => uint_value (10 * acc + 5) d
  | Decimal.D6 d => uint_value (10 * acc + 6) d
  | Decimal.D7 d => uint_value (10 * acc + 7) d
  | Decimal.D8 d => uint_value (10 * acc + 8) d
  | Decimal.D9 d => uint_value (10 * acc + 9) d
  end.

(** Text that does not go on with a digit. *)
Definition ends_number (rest : string) : bool :=
  match rest with
  | EmptyString => true
  | String c _ => negb (isdigit c)
  end.

(** Text that is over or goes on with white space. *)
Definition ends_word (rest : string) : bool :=
  match rest with
  | EmptyString => true
  | String c _ => isspace c
  end.

(** Lines in the shape the positional extraction reads in full: every value
    a word of its own, numbers in decimal. *)
Definition model_line (name : string) : string := "model " ++ name ++ " {".

Definition input_line (size : Z) : string := "input: size = " ++ show_int size.

Definition layer_line (l : Z * string) : string :=
  "layer: units= " ++ show_int (fst l) ++ " , activation= " ++ snd l.

Definition document_lines (name : string) (size : Z) (ls : list (Z * string))
  : list string :=
  model_line name :: input_line size :: map layer_line ls ++ ["}"].

(** Two streams that differ by one trailing white-space character [c] of
    the second: both failed, or both not failed with the second one never at
    its end. *)
Definition trails (c : ascii) (s s' : istream) : Prop :=
  failbit s' = failbit s
  /\ (failbit s = false ->
      eofbit s' = false
      /\ buf s' = buf s ++ String c EmptyString
      /\ (eofbit s = true -> buf s = EmptyString)).

(** ** Proof steps *)

(** Name the components of every pair a [let] takes apart in the goal. *)
Ltac split_pairs :=
  repeat match goal with
         | |- context [let '(_, _) := ?e in _] => destruct e
         end.

(** Replace the lines of a closed text by their value. *)
Ltac eval_lines :=
  match goal with
  | |- context [getlines ?t] =>
      let v := eval vm_compute in (getlines t) in
      change (getlines t) with v
  end.

(** * Properties *)

(** ** Strings *)

Lemma append_assoc (a b c : string) : (a ++ b) ++ c = a ++ (b ++ c).
Proof. induction a as [|x a IH]; simpl; [reflexivity | now rewrite IH]. Qed.

Lemma append_nil_r (a : string) : a ++ EmptyString = a.
Proof. induction a as [|x a IH]; simpl; [reflexivity | now rewrite IH]. Qed.

(** ** Reading lines *)

Lemma span_line_length (s l rest : string) :
  span_line s = (l, Some rest) -> (String.length rest < String.length s)%nat.
Proof.
  revert l. induction s as [|c r IH]; intros l; simpl; [discriminate|].
  destruct (Ascii.eqb c "010").
  - intros [= _ <-]. lia.
  - destruct (span_line r) as [l' rest'] eqn:E. intros [= _ ->].
    specialize (IH l' eq_refl). lia.
Qed.

Lemma getlines_span (s : string) :
  getlines s
  = match span_line s with
    | (l, Some rest) => l :: getlines rest
    | (l, None) => if is_empty l then [] else [l]
    end.
Proof.
  induction s as [|c r IH]; simpl; [reflexivity|].
  destruct (Ascii.eqb c "010"); [reflexivity|].
  rewrite IH. destruct (span_line r) as [l [rest|]]; [reflexivity|].
  destruct l; reflexivity.
Qed.

(** With fuel beyond the length of the text, the loop sees exactly
    [getlines text] and then stops on a failed [getline]. *)
Lemma getline_loop_getlines (fuel : nat) (text old : string) :
  (String.length text < fuel)%nat ->
  getline_loop fuel (istringstream text) old = getlines text.
Proof.
  revert text old. induction fuel as [|fuel IH]; intros text old Hlen; [lia|].
  rewrite getlines_span. unfold getline_loop; fold getline_loop.
  unfold getline, istringstream, good. cbn [eofbit failbit buf negb andb].
  destruct (span_line text) as [l [rest|]] eqn:E.
  - cbn [failbit]. f_equal. apply IH.
    pose proof (span_line_length _ _ _ E). lia.
  - cbn [failbit]. destruct l as [|c l]; cbn [is_empty]; [reflexivity|].
    f_equal. destruct fuel; [reflexivity|].
    reflexivity.
Qed.

(** ** Recognising a line *)

(** [line.find(kw) == 0] is the prefix test. *)
Lemma find_at_0_prefix (hay needle : string) :
  find_at_0 hay needle = prefix needle hay.
Proof.
  unfold find_at_0, find.
  destruct hay as [|b h].
  - destruct needle; reflexivity.
  - change (index 0 needle (String b h))
      with (if prefix needle (String b h) then Some 0%nat
            else match index 0 needle h with
                 | Some n => Some (S n)
                 | None => None
                 end).
    destruct (prefix needle (String b h)); [reflexivity|].
    destruct (index 0 needle h); reflexivity.
Qed.

Lemma prefix_head (a : ascii) (s l : string) :
  prefix (String a s) l = true -> exists l', l = String a l'.
Proof.
  destruct l as [|c l]; [discriminate|].
  change (prefix (String a s) (String c l))
    with (if ascii_dec a c then prefix s l else false).
  destruct (ascii_dec a c) as [<-|]; [|discriminate].
  intros _. now exists l.
Qed.

(** A line recognised by a later branch is not caught by an earlier one. *)
Lemma input_not_model (l : string) :
  find_at_0 l "input" = true -> find_at_0 l "model" = false.
Proof.
  rewrite !find_at_0_prefix. intros H.
  destruct (prefix_head _ _ _ H) as [l' ->]. reflexivity.
Qed.

Lemma layer_not_model (l : string) :
  find_at_0 l "layer" = true -> find_at_0 l "model" = false.
Proof.
  rewrite !find_at_0_prefix. intros H.
  destruct (prefix_head _ _ _ H) as [l' ->]. reflexivity.
Qed.

Lemma layer_not_input (l : string) :
  find_at_0 l "layer" = true -> find_at_0 l "input" = false.
Proof.
  rewrite !find_at_0_prefix. intros H.
  destruct (prefix_head _ _ _ H) as [l' ->]. reflexivity.
Qed.

(** ** One line *)

Lemma process_line_name_kept (u : Z) (st : parse_state) (l : string) :
  find_at_0 l "model" = false ->
  modelName (process_line u st l) = modelName st.
Proof.
  intros H. unfold process_line. rewrite H.
  destruct (find_at_0 l "input"); [split_pairs; reflexivity|].
  destruct (find_at_0 l "layer"); [split_pairs; reflexivity|].
  reflexivity.
Qed.

Lemma process_line_size_kept (u : Z) (st : parse_state) (l : string) :
  find_at_0 l "input" = false ->
  inputSize (process_line u st l) = inputSize st.
Proof.
  intros H. unfold process_line.
  destruct (find_at_0 l "model"); [split_pairs; reflexivity|].
  rewrite H.
  destruct (find_at_0 l "layer"); [split_pairs; reflexivity|].
  reflexivity.
Qed.

Lemma process_line_layers_kept (u : Z) (st : parse_state) (l : string) :
  find_at_0 l "layer" = false ->
  layers (process_line u st l) = layers st.
Proof.
  intros H. unfold process_line.
  destruct (find_at_0 l "model"); [split_pairs; reflexivity|].
  destruct (find_at_0 l "input"); [split_pairs; reflexivity|].
  rewrite H. reflexivity.
Qed.

(** A [model] line stores the name it carries and nothing else. *)
Lemma process_line_model (u : Z) (st : parse_state) (l : string) :
  find_at_0 l "model" = true ->
  process_line u st l =
  mkParse (match line_name l with Some n => n | None => modelName st end)
          (inputSize st) (layers st).
Proof.
  intros H. unfold process_line, line_name, skip_keys. rewrite H.
  simpl Nat.iter.
  destruct (get_string (istringstream l) EmptyString) as [key iss].
  simpl snd. unfold get_string.
  destruct (sentry iss) as [[|] s1]; [|reflexivity].
  destruct (span_word (buf s1)); reflexivity.
Qed.

(** An [input] line stores the size it carries and nothing else. *)
Lemma process_line_input (u : Z) (st : parse_state) (l : string) :
  find_at_0 l "input" = true ->
  process_line u st l =
  mkParse (modelName st)
          (match line_size l with Some v => v | None => inputSize st end)
          (layers st).
Proof.
  intros H. unfold process_line, line_size, line_int, skip_keys.
  rewrite (input_not_model _ H), H.
  simpl Nat.iter.
  destruct (get_string (istringstream l) EmptyString) as [k1 s1]. simpl snd.
  set (g2 := get_string s1 EmptyString).
  assert (E2 : snd (get_string s1 k1) = snd g2).
  { unfold g2, get_string. destruct (sentry s1) as [[|] ?]; [|reflexivity].
    destruct (span_word (buf i)); reflexivity. }
  destruct (get_string s1 k1) as [k2 s2]. simpl in E2. subst s2.
  set (g3 := get_string (snd g2) EmptyString).
  assert (E3 : snd (get_string (snd g2) k2) = snd g3).
  { unfold g3, get_string. destruct (sentry (snd g2)) as [[|] ?]; [|reflexivity].
    destruct (span_word (buf i)); reflexivity. }
  destruct (get_string (snd g2) k2) as [k3 s3]. simpl in E3. subst s3.
  unfold get_int.
  destruct (sentry (snd g3)) as [[|] s4]; [|reflexivity].
  destruct (num_get (buf s4)) as [[v f] r]. reflexivity.
Qed.

(** What an extraction leaves in the stream does not depend on the variable
    it writes to. *)
Lemma get_string_stream (s : istream) (o o' : string) :
  snd (get_string s o) = snd (get_string s o').
Proof.
  unfold get_string. destruct (sentry s) as [[|] s1]; [|reflexivity].
  destruct (span_word (buf s1)); reflexivity.
Qed.

Lemma get_int_stream (s : istream) (o o' : Z) :
  snd (get_int s o) = snd (get_int s o').
Proof.
  unfold get_int. destruct (sentry s) as [[|] s1]; [|reflexivity].
  destruct (num_get (buf s1)) as [[v f] r]; reflexivity.
Qed.

(** Once [failbit] is up, an extraction writes nothing and the bit stays. *)
Lemma get_string_failed (s : istream) (o : string) :
  failbit s = true ->
  get_string s o = (o, mkIstream (buf s) (eofbit s) true).
Proof.
  intros F. unfold get_string, sentry, good. rewrite F, andb_false_r.
  reflexivity.
Qed.

(** A failed conversion stores zero or, past the range of [int], the bound
    on that side. *)
Lemma num_get_failure (s : string) (v : Z) (r : string) :
  num_get s = (v, true, r) -> v = 0 \/ v = INT_MAX \/ v = INT_MIN.
Proof.
  unfold num_get.
  destruct (match s with
            | String "-" r0 => (true, r0)
            | String "+" r0 => (false, r0)
            | _ => (false, s)
            end) as [neg body].
  destruct (span_digits 0 false body) as [[mag seen] rest].
  destruct seen.
  - destruct ((if neg then - mag else mag) <? INT_MIN).
    + intros [= <- _]. auto.
    + destruct (INT_MAX <? (if neg then - mag else mag)).
      * intros [= <- _]. auto.
      * discriminate.
  - intros [= <- _]. auto.
Qed.

(** A [layer] line appends one layer whatever its shape.  When the
    extraction of the unit count fails the activation stays empty; when the
    extraction reached a field, the unit count is what the conversion of
    that field stored. *)
Lemma process_line_layer (u : Z) (st : parse_state) (l : string) :
  find_at_0 l "layer" = true ->
  exists units act,
    process_line u st l =
      mkParse (modelName st) (inputSize st) (layers st ++ [(units, act)])
    /\ (units_extraction_fails l = true -> act = EmptyString)
    /\ (forall v f, line_int 2 l = Some (v, f) ->
        units = v /\ units_extraction_fails l = f)
    /\ (line_int 2 l = None -> units = u).
Proof.
  intros H. unfold process_line.
  rewrite (layer_not_model _ H), (layer_not_input _ H), H.
  destruct (get_string (istringstream l) EmptyString) as [k1 s1] eqn:E1.
  destruct (get_string s1 k1) as [k2 s2] eqn:E2.
  assert (Hs2 : skip_keys 2 l = s2).
  { unfold skip_keys. simpl Nat.iter. rewrite E1. simpl snd.
    rewrite (get_string_stream s1 EmptyString k1), E2. reflexivity. }
  destruct (get_int s2 u) as [units s3] eqn:E3.
  destruct (get_string s3 k2) as [k4 s4] eqn:E4.
  destruct (get_string s4 k4) as [k5 s5] eqn:E5.
  destruct (get_string s5 EmptyString) as [act s6] eqn:E6.
  exists units, act. split; [reflexivity|].
  assert (Hf : units_extraction_fails l = failbit s3).
  { unfold units_extraction_fails.
    rewrite Hs2, (get_int_stream s2 0 u), E3. reflexivity. }
  split; [|split].
  - rewrite Hf. intros F.
    rewrite (get_string_failed _ _ F) in E4. injection E4 as _ <-.
    rewrite get_string_failed in E5 by reflexivity. injection E5 as _ <-.
    rewrite get_string_failed in E6 by reflexivity. injection E6 as <- _.
    reflexivity.
  - intros v f. rewrite Hf. unfold line_int. rewrite Hs2.
    unfold get_int in E3. destruct (sentry s2) as [[|] s2']; [|discriminate].
    destruct (num_get (buf s2')) as [[v' f'] r].
    injection E3 as <- <-. intros [= <- <-]. split; reflexivity.
  - unfold line_int. rewrite Hs2.
    unfold get_int in E3. destruct (sentry s2) as [[|] s2'].
    + destruct (num_get (buf s2')) as [[v' f'] r]. discriminate.
    + injection E3 as <- _. reflexivity.
Qed.

Lemma line_int_failure (n : nat) (l : string) (v : Z) :
  line_int n l = Some (v, true) -> v = 0 \/ v = INT_MAX \/ v = INT_MIN.
Proof.
  unfold line_int. destruct (sentry (skip_keys n l)) as [[|] s]; [|discriminate].
  destruct (num_get (buf s)) as [[v' f] r] eqn:E. intros [= -> ->].
  exact (num_get_failure _ _ _ E).
Qed.

(** A line that begins with white space falls through every branch. *)
Lemma prefix_space (a c : ascii) (s l : string) :
  isspace a = false -> isspace c = true ->
  prefix (String a s) (String c l) = false.
Proof.
  intros Ha Hc.
  change (prefix (String a s) (String c l))
    with (if ascii_dec a c then prefix s l else false).
  destruct (ascii_dec a c) as [->|]; [congruence | reflexivity].
Qed.

Lemma process_line_blank (u : Z) (st : parse_state) :
  process_line u st EmptyString = st.
Proof. reflexivity. Qed.

Lemma process_line_indented (u : Z) (st : parse_state) (c : ascii) (l : string) :
  isspace c = true -> process_line u st (String c l) = st.
Proof.
  intros Hc. unfold process_line.
  rewrite !find_at_0_prefix, !prefix_space by (reflexivity || assumption).
  reflexivity.
Qed.

(** ** The loop *)

Section Loop.

Variable uninit : nat -> Z.

Lemma parse_from_app (k : nat) (st : parse_state) (a b : list string) :
  parse_from uninit k st (a ++ b)
  = parse_from uninit (k + length a) (parse_from uninit k st a) b.
Proof.
  revert k st. induction a as [|l a IH]; intros k st; simpl.
  - now rewrite Nat.add_0_r.
  - rewrite IH. f_equal. lia.
Qed.

Lemma parse_from_name_kept (k : nat) (st : parse_state) (ls : list string) :
  Forall (fun l => find_at_0 l "model" = false) ls ->
  modelName (parse_from uninit k st ls) = modelName st.
Proof.
  intros F. revert k st.
  induction F as [|l ls Hl _ IH]; intros k st; simpl; [reflexivity|].
  rewrite IH. now apply process_line_name_kept.
Qed.

Lemma parse_from_size_kept (k : nat) (st : parse_state) (ls : list string) :
  Forall (fun l => find_at_0 l "input" = false) ls ->
  inputSize (parse_from uninit k st ls) = inputSize st.
Proof.
  intros F. revert k st.
  induction F as [|l ls Hl _ IH]; intros k st; simpl; [reflexivity|].
  rewrite IH. now apply process_line_size_kept.
Qed.

Lemma parse_from_layers_kept (k : nat) (st : parse_state) (ls : list string) :
  Forall (fun l => find_at_0 l "layer" = false) ls ->
  layers (parse_from uninit k st ls) = layers st.
Proof.
  intros F. revert k st.
  induction F as [|l ls Hl _ IH]; intros k st; simpl; [reflexivity|].
  rewrite IH. now apply process_line_layers_kept.
Qed.

(** Lines that begin with white space leave the state alone. *)
Lemma parse_from_indented (k : nat) (st : parse_state) (ls : list string) :
  Forall (fun l => exists c r, l = String c r /\ isspace c = true) ls ->
  parse_from uninit k st ls = st.
Proof.
  intros F. revert k st.
  induction F as [|l ls (c & r & -> & Hc) _ IH]; intros k st; simpl;
    [reflexivity|].
  now rewrite process_line_indented, IH.
Qed.

End Loop.

Lemma parse_lines_split (uninit : nat -> Z) (pre post : list string) (l : string) :
  parse_lines uninit (pre ++ l :: post)
  = parse_from uninit (S (length pre))
      (process_line (uninit (length pre)) (parse_lines uninit pre) l) post.
Proof. unfold parse_lines. rewrite parse_from_app. reflexivity. Qed.

(** ** [main] on a readable file *)

Lemma main_rejects (ndebug : bool) (uninit : nat -> Z) (prog path text : string)
    (fs : filesystem) :
  fs path = Some text -> valid (parse uninit text) = false ->
  main ndebug uninit [prog; path] fs
  = mkRun (Exit 1) EmptyString ("Error: Invalid input format." ++ nl) fs.
Proof. intros Hf Hv. unfold main. rewrite Hf, Hv. reflexivity. Qed.

Lemma main_accepts (ndebug : bool) (uninit : nat -> Z) (prog path text : string)
    (fs : filesystem) :
  fs path = Some text -> valid (parse uninit text) = true ->
  main ndebug uninit [prog; path] fs
  = let st := parse uninit text in
    mkRun (Exit 0)
          ("Model class generated successfully: " ++ modelName st ++ ".cpp" ++ nl)
          EmptyString
          (generateModelClass (modelName st) (inputSize st) (layers st) fs).
Proof.
  intros Hf Hv. unfold main. rewrite Hf, Hv. cbv zeta. f_equal.
  unfold put. now rewrite !append_assoc.
Qed.

Lemma valid_iff (st : parse_state) :
  valid st = true
  <-> modelName st <> EmptyString /\ 0 < inputSize st /\ layers st <> [].
Proof.
  unfold valid. rewrite !andb_true_iff, !negb_true_iff, Z.ltb_lt.
  destruct (modelName st), (layers st); simpl; intuition congruence.
Qed.

(** * The claims *)

(** C1 (the code departs from it).  Scenario 1, flush left, does not parse to
    [TestModel], 4, [(8, relu); (2, sigmoid)]: the name is read, but
    [input: size=4] has two words where the extraction skips three, so the
    size stays 0, and in each [layer:] line the extraction of the unit count
    meets the word [activation=...], stores 0 and fails, which leaves the
    activation empty.  The check of [main] then rejects the document.  The
    same model with every value as a word of its own parses as the scenario
    says. *)
Theorem scenario1_parse (ndebug : bool) (uninit : nat -> Z) :
  parse uninit scenario1
    = mkParse "TestModel" 0 [(0, EmptyString); (0, EmptyString)]
  /\ valid (parse uninit scenario1) = false
  /\ exit_status (main ndebug uninit ["ailang"; "m.ail"]
                    (one_file "m.ail" scenario1)) = Exit 1
  /\ parse uninit spaced1 = mkParse "TestModel" 4 test_layers
  /\ valid (parse uninit spaced1) = true.
Proof. repeat split; vm_compute; reflexivity. Qed.

(** C4.  A readable document is rejected, with the diagnostic on [cerr], exit
    status 1 and no file written, in each of these cases: no line is a
    [model] line; its one [input] line is [input: size=0]; the size it
    parses to is not positive; no line is a [layer] line. *)
Theorem validation_rejects (ndebug : bool) (uninit : nat -> Z)
    (prog path text : string) (fs : filesystem) :
  fs path = Some text ->
  (Forall (fun l => find_at_0 l "model" = false) (getlines text)
   \/ (exists pre post,
         getlines text = (pre ++ "input: size=0" :: post)%list
         /\ Forall (fun l => find_at_0 l "input" = false) pre
         /\ Forall (fun l => find_at_0 l "input" = false) post)
   \/ inputSize (parse uninit text) <= 0
   \/ Forall (fun l => find_at_0 l "layer" = false) (getlines text)) ->
  let r := main ndebug uninit [prog; path] fs in
  exit_status r = Exit 1
  /\ cerr r = "Error: Invalid input format." ++ nl
  /\ cout r = EmptyString
  /\ files r = fs.
Proof.
  intros Hf Hcase.
  assert (Hv : valid (parse uninit text) = false).
  { apply not_true_is_false. rewrite valid_iff. intros (Hn & Hs & Hl).
    unfold parse in *.
    destruct Hcase as [F | [(pre & post & E & Fpre & Fpost) | [Hle | F]]].
    - apply Hn. unfold parse_lines. now rewrite parse_from_name_kept.
    - rewrite E, parse_lines_split, parse_from_size_kept in Hs by assumption.
      rewrite process_line_input in Hs by reflexivity.
      change (line_size "input: size=0") with (@None Z) in Hs.
      unfold parse_lines in Hs. simpl in Hs.
      rewrite parse_from_size_kept in Hs by assumption.
      simpl in Hs. lia.
    - lia.
    - apply Hl. unfold parse_lines. now rewrite parse_from_layers_kept. }
  intros r. subst r. rewrite (main_rejects _ _ _ _ _ _ Hf Hv).
  repeat split.
Qed.

(** The three kinds of rejected document, run through [main]. *)
Lemma validation_rejects_witness :
  (let r := main false (fun _ => 0) ["ailang"; "m.ail"]
              (one_file "m.ail" ("layer: units= 8 , activation= " ++ relu_lit ++ nl))
   in exit_status r = Exit 1
      /\ cerr r = "Error: Invalid input format." ++ nl
      /\ cout r = EmptyString
      /\ files r = one_file "m.ail"
                     ("layer: units= 8 , activation= " ++ relu_lit ++ nl))
  /\ (let r := main false (fun _ => 0) ["ailang"; "m.ail"]
                 (one_file "m.ail"
                    ("model M {" ++ nl ++ "input: size=0" ++ nl
                     ++ "layer: units= 8 , activation= " ++ relu_lit ++ nl))
      in exit_status r = Exit 1)
  /\ (let r := main false (fun _ => 0) ["ailang"; "m.ail"]
                 (one_file "m.ail"
                    ("model M {" ++ nl ++ "input: size = 4" ++ nl ++ "}" ++ nl))
      in exit_status r = Exit 1).
Proof.
  split; [|split].
  - apply validation_rejects
      with (text := "layer: units= 8 , activation= " ++ relu_lit ++ nl).
    + reflexivity.
    + left. vm_compute. repeat constructor.
  - apply validation_rejects
      with (text := "model M {" ++ nl ++ "input: size=0" ++ nl
                    ++ "layer: units= 8 , activation= " ++ relu_lit ++ nl).
    + reflexivity.
    + right; left.
      exists ["model M {"], ["layer: units= 8 , activation= " ++ relu_lit].
      split; [reflexivity|]. split; vm_compute; repeat constructor.
  - apply validation_rejects
      with (text := "model M {" ++ nl ++ "input: size = 4" ++ nl ++ "}" ++ nl).
    + reflexivity.
    + right; right; right. vm_compute. repeat constructor.
Defined.

(** C5 (the code departs from it).  Indentation changes the parse: the
    keyword is looked for at column 0 only, so a document whose lines are
    indented by two spaces parses to the initial state and is rejected, while
    the same document flush left is accepted.  The program's own
    [testParser] feeds an indented document and asserts the parsed values;
    its assertions do not hold. *)
Theorem indentation_changes_parse (uninit : nat -> Z) :
  valid (parse_lines uninit (getlines spaced1)) = true
  /\ parse_lines uninit (map (append "  ") (getlines spaced1)) = parse_init
  /\ valid (parse_lines uninit (map (append "  ") (getlines spaced1))) = false
  /\ testParser_asserts uninit = false.
Proof. repeat split; vm_compute; reflexivity. Qed.

(** C7, as stated, fails: a document is accepted with a layer of 0 units. *)
Lemma units_not_checked :
  ~ (forall (uninit : nat -> Z) (text : string),
       valid (parse uninit text) = true ->
       let st := parse uninit text in
       modelName st <> EmptyString /\ 0 < inputSize st /\ layers st <> []
       /\ Forall (fun l => 0 < fst l) (layers st)).
Proof.
  intros H.
  destruct (H (fun _ => 0) glued_layer eq_refl) as (_ & _ & _ & F).
  vm_compute in F. inversion F as [|? ? H0 _]. discriminate H0.
Qed.

(** C7, amended.  A run that translates and exits with 0 read a document
    whose parse has a name that is not empty, a positive input size and at
    least one layer.  Nothing is said of the unit counts. *)
Theorem accepted_model_invariants (ndebug : bool) (uninit : nat -> Z)
    (prog path : string) (fs : filesystem) :
  exit_status (main ndebug uninit [prog; path] fs) = Exit 0 ->
  exists text,
    fs path = Some text
    /\ modelName (parse uninit text) <> EmptyString
    /\ 0 < inputSize (parse uninit text)
    /\ layers (parse uninit text) <> [].
Proof.
  unfold main. destruct (fs path) as [text|]; [|discriminate].
  destruct (valid (parse uninit text)) eqn:Hv; [|discriminate].
  intros _. exists text. split; [reflexivity|]. now apply valid_iff.
Qed.

(** The spaced sample is accepted and has the three properties. *)
Lemma accepted_model_invariants_witness :
  exists text,
    one_file "m.ail" spaced1 "m.ail" = Some text
    /\ modelName (parse (fun _ => 0) text) <> EmptyString
    /\ 0 < inputSize (parse (fun _ => 0) text)
    /\ layers (parse (fun _ => 0) text) <> [].
Proof.
  apply (accepted_model_invariants false (fun _ => 0) "ailang" "m.ail"
           (one_file "m.ail" spaced1)).
  vm_compute. reflexivity.
Defined.

Lemma parse_second_input_glued (uninit : nat -> Z) :
  inputSize (parse_lines uninit ["input: size = 3"; "input: size=5"]) = 3
  /\ inputSize (parse_lines uninit ["input: size=5"]) = 0
  /\ modelName (parse_lines uninit ["model First {"; "model"]) = "First"
  /\ modelName (parse_lines uninit ["model"]) = EmptyString.
Proof. repeat split. Qed.

(** C9, as stated, fails: the last line recognised as an [input]
    declaration does not always decide the size.  After [input: size = 3]
    the line [input: size=5] stores nothing and the parsed size is 3, which
    is neither the 5 written there nor what that line gives on its own. *)
Lemma last_line_does_not_always_win :
  ~ (forall (uninit : nat -> Z) (pre post : list string) (line : string),
       find_at_0 line "input" = true ->
       Forall (fun l => find_at_0 l "input" = false) post ->
       inputSize (parse_lines uninit (pre ++ line :: post))
       = inputSize (parse_lines uninit [line])).
Proof.
  intros H.
  specialize (H (fun _ => 0) ["input: size = 3"] [] "input: size=5"
                eq_refl (Forall_nil _)).
  vm_compute in H. discriminate H.
Qed.

(** C9, amended.  Among the lines recognised as [model] (as [input])
    declarations the last one that stores a value decides.  The last [model]
    line of a document gives the parsed name if it has a second word, and
    otherwise leaves the name parsed from the lines before it; the last
    [input] line gives the parsed size, as the conversion of its fourth
    field stores it, if it has a fourth field, and otherwise leaves the size
    parsed from the lines before it.  Nothing is reported: the sample with
    two [model] lines and two [input] lines is translated with exit status
    0. *)
Theorem last_storing_declaration_wins (ndebug : bool) (uninit : nat -> Z)
    (pre post : list string) (line : string) :
  (find_at_0 line "model" = true ->
   Forall (fun l => find_at_0 l "model" = false) post ->
   modelName (parse_lines uninit (pre ++ line :: post))
   = match line_name line with
     | Some n => n
     | None => modelName (parse_lines uninit pre)
     end)
  /\ (find_at_0 line "input" = true ->
      Forall (fun l => find_at_0 l "input" = false) post ->
      inputSize (parse_lines uninit (pre ++ line :: post))
      = match line_size line with
        | Some v => v
        | None => inputSize (parse_lines uninit pre)
        end)
  /\ parse uninit duplicates = mkParse "Second" 5 [(8, relu_lit)]
  /\ exit_status (main ndebug uninit ["ailang"; "m.ail"]
                    (one_file "m.ail" duplicates)) = Exit 0.
Proof.
  split; [|split; [|split]].
  - intros Hm Fpost.
    rewrite parse_lines_split, parse_from_name_kept by assumption.
    rewrite process_line_model by assumption. reflexivity.
  - intros Hi Fpost.
    rewrite parse_lines_split, parse_from_size_kept by assumption.
    rewrite process_line_input by assumption. reflexivity.
  - vm_compute. reflexivity.
  - vm_compute. reflexivity.
Qed.

(** A second name that is stored and one that is not; a second size that is
    stored and one that is not. *)
Lemma last_storing_declaration_wins_witness :
  (modelName (parse_lines (fun _ => 0)
                (["model First {"] ++ "model Second {" :: ["}"]))
   = "Second"
   /\ modelName (parse_lines (fun _ => 0)
                   (["model First {"] ++ "model" :: ["}"]))
      = "First")
  /\ (inputSize (parse_lines (fun _ => 0)
                   (["input: size = 3"] ++ "input: size = 5" :: ["}"]))
      = 5
      /\ inputSize (parse_lines (fun _ => 0)
                      (["input: size = 3"] ++ "input: size=5" :: ["}"]))
         = 3).
Proof.
  split; split.
  - apply (last_storing_declaration_wins false (fun _ => 0)
             ["model First {"] ["}"] "model Second {");
      [reflexivity | repeat constructor].
  - apply (last_storing_declaration_wins false (fun _ => 0)
             ["model First {"] ["}"] "model");
      [reflexivity | repeat constructor].
  - apply (last_storing_declaration_wins false (fun _ => 0)
             ["input: size = 3"] ["}"] "input: size = 5");
      [reflexivity | repeat constructor].
  - apply (last_storing_declaration_wins false (fun _ => 0)
             ["input: size = 3"] ["}"] "input: size=5");
      [reflexivity | repeat constructor].
Defined.

(** C10, as stated, fails: the extraction of a unit count that does not fit
    an [int] fails and stores the largest [int], not 0. *)
Lemma failed_units_not_always_zero :
  ~ (forall (u : Z) (st : parse_state) (line : string),
       find_at_0 line "layer" = true ->
       units_extraction_fails line = true ->
       layers (process_line u st line)
       = (layers st ++ [(0, EmptyString)])%list).
Proof.
  intros H.
  specialize (H 0 parse_init huge_units_line eq_refl eq_refl).
  vm_compute in H. discriminate H.
Qed.

(** What the conversion stores, by the number the field starts with. *)
Lemma num_get_by_number (s : string) :
  fst (num_get s)
  = match field_number s with
    | None => (0, true)
    | Some v =>
        if v <? INT_MIN then (INT_MIN, true)
        else if INT_MAX <? v then (INT_MAX, true)
        else (v, false)
    end.
Proof.
  unfold num_get, field_number.
  destruct (match s with
            | String "-" r0 => (true, r0)
            | String "+" r0 => (false, r0)
            | _ => (false, s)
            end) as [neg body].
  destruct (span_digits 0 false body) as [[mag seen] rest].
  destruct seen; [|reflexivity].
  destruct ((if neg then - mag else mag) <? INT_MIN); [reflexivity|].
  destruct (INT_MAX <? (if neg then - mag else mag)); reflexivity.
Qed.

Lemma line_int_field (line : string) :
  line_int 2 line
  = option_map (fun fld => fst (num_get fld)) (units_field line).
Proof.
  unfold line_int, units_field.
  destruct (sentry (skip_keys 2 line)) as [[|] iss]; [|reflexivity].
  cbn [option_map]. destruct (num_get (buf iss)) as [[v f] r]. reflexivity.
Qed.

(** C10, amended.  A [layer] line appends exactly one layer and changes
    nothing else, whatever its shape.  When the extraction of the unit count
    fails the activation of that layer is empty, and if the extraction had
    reached a field the unit count is 0 when the field starts with no
    number, [INT_MAX] when it starts with a number above [INT_MAX] and
    [INT_MIN] when it starts with a number below [INT_MIN].  The state
    passes the check as soon as the name and the input size do. *)
Theorem layer_line_appends (u : Z) (st : parse_state) (line : string) :
  find_at_0 line "layer" = true ->
  exists units act,
    process_line u st line =
      mkParse (modelName st) (inputSize st) (layers st ++ [(units, act)])
    /\ (units_extraction_fails line = true ->
        act = EmptyString
        /\ (forall fld, units_field line = Some fld ->
            match field_number fld with
            | None => units = 0
            | Some v =>
                (INT_MAX < v /\ units = INT_MAX)
                \/ (v < INT_MIN /\ units = INT_MIN)
            end))
    /\ (modelName st <> EmptyString -> 0 < inputSize st ->
        valid (process_line u st line) = true).
Proof.
  intros H.
  destruct (process_line_layer u st line H) as (units & act & E & Ha & Hv & _).
  exists units, act. split; [exact E|]. split.
  - intros F. split; [now apply Ha|].
    intros fld Hfld.
    pose proof (line_int_field line) as L. rewrite Hfld in L.
    cbn [option_map] in L. rewrite num_get_by_number in L.
    destruct (field_number fld) as [v|].
    + destruct (Z.ltb_spec v INT_MIN) as [Hlo|Hlo].
      * destruct (Hv _ _ L) as [-> _]. now right.
      * destruct (Z.ltb_spec INT_MAX v) as [Hhi|Hhi].
        -- destruct (Hv _ _ L) as [-> _]. now left.
        -- destruct (Hv _ _ L) as [_ Ef]. congruence.
    + now destruct (Hv _ _ L) as [-> _].
  - intros Hn Hs. rewrite E. apply valid_iff. simpl.
    repeat split; try assumption.
    destruct (layers st); discriminate.
Qed.

(** The glued layer line, whose third word is no number, and the line with
    a unit count beyond [INT_MAX]. *)
Lemma layer_line_appends_witness :
  process_line 7 (mkParse "M" 4 []) ("layer: units=8, activation=" ++ relu_lit)
    = mkParse "M" 4 [(0, EmptyString)]
  /\ process_line 7 (mkParse "M" 4 []) huge_units_line
     = mkParse "M" 4 [(INT_MAX, EmptyString)]
  /\ valid (process_line 7 (mkParse "M" 4 [])
              ("layer: units=8, activation=" ++ relu_lit)) = true.
Proof.
  destruct (layer_line_appends 7 (mkParse "M" 4 [])
              ("layer: units=8, activation=" ++ relu_lit) eq_refl)
    as (u1 & a1 & E1 & F1 & V1).
  destruct (layer_line_appends 7 (mkParse "M" 4 []) huge_units_line eq_refl)
    as (u2 & a2 & E2 & F2 & _).
  destruct (F1 eq_refl) as [A1 U1]. destruct (F2 eq_refl) as [A2 U2].
  specialize (U1 _ eq_refl). specialize (U2 _ eq_refl).
  cbn in U1, U2. destruct U2 as [[_ U2] | [U2 _]]; [|discriminate U2].
  split; [|split].
  - rewrite E1, A1, U1. reflexivity.
  - rewrite E2, A2, U2. reflexivity.
  - apply V1; [discriminate | reflexivity].
Defined.

(** A [layer] line that ends before the unit count hands the vector what
    the uninitialised local happened to hold. *)
Lemma short_layer_line (u : Z) (st : parse_state) :
  process_line u st "layer:"
  = mkParse (modelName st) (inputSize st) (layers st ++ [(u, EmptyString)]).
Proof. reflexivity. Qed.

(** ** The emitters, loop by loop *)

Lemma eigen_layer_block (pre rest : list (Z * string)) (u : Z) (a os : string) :
  eigen_layer (pre ++ (u, a) :: rest) os (length pre)
  = os ++ eigen_affine (length pre + 1) u
       ++ eigen_activation (activation_kind a) ++ nl.
Proof.
  unfold eigen_layer, layer_at. rewrite nth_middle.
  unfold put, eigen_affine, activation_kind.
  destruct (a =? relu_lit)%string; [|destruct (a =? sigmoid_lit)%string];
    unfold eigen_activation; rewrite !append_assoc; reflexivity.
Qed.

Lemma eigen_loop (ls pre : list (Z * string)) (os : string) :
  fold_left (eigen_layer (pre ++ ls)) (seq (length pre) (length ls)) os
  = os ++ eigen_blocks (length pre + 1) ls.
Proof.
  revert pre os. induction ls as [|[u a] rest IH]; intros pre os.
  - simpl. now rewrite append_nil_r.
  - cbn [length seq fold_left eigen_blocks].
    rewrite eigen_layer_block.
    replace (pre ++ (u, a) :: rest)%list with ((pre ++ [(u, a)]) ++ rest)%list
      by now rewrite <- app_assoc.
    replace (S (length pre)) with (length (pre ++ [(u, a)]))
      by (rewrite length_app; simpl; lia).
    rewrite IH. rewrite length_app. cbn [length].
    replace (length pre + 1 + 1)%nat with (S (length pre + 1)) by lia.
    now rewrite !append_assoc.
Qed.

Lemma generateModelClass_text_blocks (name : string) (s : Z)
    (ls : list (Z * string)) :
  generateModelClass_text name s ls
  = eigen_prologue name ++ eigen_blocks 1 ls ++ eigen_epilogue.
Proof.
  unfold generateModelClass_text, for_range.
  rewrite (eigen_loop ls []).
  unfold put, eigen_prologue, eigen_epilogue. cbn [length Nat.add].
  rewrite !append_assoc. reflexivity.
Qed.

Lemma python_init_block (s : Z) (pre rest : list (Z * string)) (u : Z)
    (a os : string) :
  python_init s (pre ++ (u, a) :: rest) os (length pre)
  = os ++ python_decl (length pre + 1) u (last (map fst pre) s).
Proof.
  unfold python_init, layer_at. rewrite nth_middle. cbn [fst].
  assert (E : (if (length pre =? 0)%nat then s
               else fst (nth (length pre - 1) (pre ++ (u, a) :: rest)
                           (0, EmptyString)))
              = last (map fst pre) s).
  { destruct pre as [|p pre'] using rev_ind; [reflexivity|].
    rewrite length_app, map_app. cbn [length map]. rewrite last_last.
    replace (length pre' + 1 =? 0)%nat with false
      by (symmetry; apply Nat.eqb_neq; lia).
    replace (length pre' + 1 - 1)%nat with (length pre') by lia.
    rewrite <- app_assoc. cbn [app]. now rewrite nth_middle. }
  rewrite E. unfold put, python_decl. rewrite !append_assoc. reflexivity.
Qed.

Lemma python_init_loop (s : Z) (ls pre : list (Z * string)) (os : string) :
  fold_left (python_init s (pre ++ ls)) (seq (length pre) (length ls)) os
  = os ++ python_decls (length pre + 1) (last (map fst pre) s) ls.
Proof.
  revert pre os. induction ls as [|[u a] rest IH]; intros pre os.
  - simpl. now rewrite append_nil_r.
  - cbn [length seq fold_left python_decls].
    rewrite python_init_block.
    replace (pre ++ (u, a) :: rest)%list with ((pre ++ [(u, a)]) ++ rest)%list
      by now rewrite <- app_assoc.
    replace (S (length pre)) with (length (pre ++ [(u, a)]))
      by (rewrite length_app; simpl; lia).
    rewrite IH. rewrite length_app, map_app. cbn [length map fst].
    rewrite last_last.
    replace (length pre + 1 + 1)%nat with (S (length pre + 1)) by lia.
    now rewrite !append_assoc.
Qed.

Lemma python_forward_block (pre rest : list (Z * string)) (u : Z)
    (a os : string) :
  python_forward (pre ++ (u, a) :: rest) os (length pre)
  = os ++ python_affine (length pre + 1)
       ++ python_activation (activation_kind a).
Proof.
  unfold python_forward, layer_at. rewrite nth_middle. cbn [snd].
  unfold put, python_affine, activation_kind.
  destruct (a =? relu_lit)%string; [|destruct (a =? sigmoid_lit)%string];
    unfold python_activation; rewrite ?append_assoc, ?append_nil_r;
    reflexivity.
Qed.

Lemma python_forward_loop (ls pre : list (Z * string)) (os : string) :
  fold_left (python_forward (pre ++ ls)) (seq (length pre) (length ls)) os
  = os ++ python_steps (length pre + 1) ls.
Proof.
  revert pre os. induction ls as [|[u a] rest IH]; intros pre os.
  - simpl. now rewrite append_nil_r.
  - cbn [length seq fold_left python_steps].
    rewrite python_forward_block.
    replace (pre ++ (u, a) :: rest)%list with ((pre ++ [(u, a)]) ++ rest)%list
      by now rewrite <- app_assoc.
    replace (S (length pre)) with (length (pre ++ [(u, a)]))
      by (rewrite length_app; simpl; lia).
    rewrite IH. rewrite length_app. cbn [length].
    replace (length pre + 1 + 1)%nat with (S (length pre + 1)) by lia.
    now rewrite !append_assoc.
Qed.

Lemma pythonCode_blocks (name : string) (s : Z) (ls : list (Z * string)) :
  pythonCode name s ls
  = python_prologue name ++ python_decls 1 s ls ++ python_middle
    ++ python_steps 1 ls ++ python_epilogue.
Proof.
  unfold pythonCode, for_range.
  rewrite (python_init_loop s ls []), (python_forward_loop ls []).
  unfold put, python_prologue, python_middle, python_epilogue.
  cbn [length Nat.add map last].
  rewrite !append_assoc. reflexivity.
Qed.

(** C2 (the code departs from it).  The Eigen emitter never writes the
    column count of a weight: its text is the same for every input size, and
    for the model of the built-in check it holds [Random(8, x.cols())] and
    [Random(2, x.cols())] where the claim expects the shapes (8, 4) and
    (2, 8).  The numpy emitter writes both shapes. *)
Theorem eigen_text_ignores_input_size :
  (forall (name : string) (s s' : Z) (ls : list (Z * string)),
      generateModelClass_text name s ls = generateModelClass_text name s' ls)
  /\ find (generateModelClass_text "TestModel" 4 test_layers) "Random(8, 4)"
     = None
  /\ find (generateModelClass_text "TestModel" 4 test_layers) "Random(2, 8)"
     = None
  /\ find (generateModelClass_text "TestModel" 4 test_layers)
          "W1 = Eigen::MatrixXd::Random(8, x.cols());" <> None
  /\ find (generateModelClass_text "TestModel" 4 test_layers)
          "W2 = Eigen::MatrixXd::Random(2, x.cols());" <> None
  /\ find (pythonCode "TestModel" 4 test_layers)
          "self.W1 = np.random.rand(8, 4)" <> None
  /\ find (pythonCode "TestModel" 4 test_layers)
          "self.W2 = np.random.rand(2, 8)" <> None.
Proof.
  split; [reflexivity|].
  repeat split; vm_compute; (reflexivity || discriminate).
Qed.

(** C3.  Both emitters write, for each layer in order, the affine step
    followed at once by the expression of the layer's activation kind, where
    the kind is decided by exact comparison of the stored activation string
    (the quoted literal as the line holds it) with the literal for relu and
    with the literal for sigmoid: max with zero for the first, the logistic
    expression for the second, nothing for any other string. *)
Theorem activation_mapping (name : string) (s : Z) (ls : list (Z * string)) :
  generateModelClass_text name s ls
    = eigen_prologue name ++ eigen_blocks 1 ls ++ eigen_epilogue
  /\ pythonCode name s ls
     = python_prologue name ++ python_decls 1 s ls ++ python_middle
       ++ python_steps 1 ls ++ python_epilogue
  /\ activation_kind relu_lit = ReLU
  /\ activation_kind sigmoid_lit = Sigmoid
  /\ forall a, a = relu_lit \/ a = sigmoid_lit \/ activation_kind a = Identity.
Proof.
  split; [apply generateModelClass_text_blocks|].
  split; [apply pythonCode_blocks|].
  split; [reflexivity|]. split; [reflexivity|].
  intros a. unfold activation_kind.
  destruct (String.eqb_spec a relu_lit) as [->|_]; [now left|].
  destruct (String.eqb_spec a sigmoid_lit) as [->|_]; [now right; left|].
  now right; right.
Qed.

Lemma generateModelClass_opened (name : string) (s : Z)
    (ls : list (Z * string)) (fs : filesystem) :
  creatable fs (c_str (name ++ ".cpp")) = true ->
  generateModelClass name s ls fs
  = write_file fs (c_str (name ++ ".cpp")) (generateModelClass_text name s ls).
Proof. intros H. unfold generateModelClass. now rewrite H. Qed.



(** C6.  The exit status is 0 exactly when the run succeeds; it is 1 when
    the file does not open and when the parsed document fails the check; a
    run that does not end with status 0 leaves the files as they were. *)
Theorem exit_status_spec (ndebug : bool) (uninit : nat -> Z)
    (argv : list string) (fs : filesystem) :
  let r := main ndebug uninit argv fs in
  (exit_status r = Exit 0 <-> run_succeeds ndebug uninit argv fs)
  /\ (forall prog path,
        argv = [prog; path] ->
        fs path = None
        \/ (exists text, fs path = Some text /\ valid (parse uninit text) = false) ->
        exit_status r = Exit 1)
  /\ (exit_status r <> Exit 0 -> files r = fs).
Proof.
  assert (Hself :
    forall r0,
      r0 = match testParser ndebug uninit with
           | None => mkRun Aborted EmptyString EmptyString fs
           | Some out1 =>
               match testPythonTranspilation ndebug with
               | None => mkRun Aborted out1 EmptyString fs
               | Some out2 => mkRun (Exit 0) (out1 << out2) EmptyString fs
               end
           end ->
      (exit_status r0 = Exit 0
       <-> ndebug = true
           \/ (testParser_asserts uninit = true /\ testPython_asserts = true))
      /\ files r0 = fs).
  { intros r0 ->. unfold testParser, testPythonTranspilation.
    destruct ndebug; [simpl; intuition|].
    destruct (testParser_asserts uninit);
      destruct testPython_asserts; simpl; intuition discriminate. }
  destruct argv as [|a0 [|a1 [|a2 rest]]]; cbn zeta.
  1, 2, 4: destruct (Hself _ eq_refl) as [Hiff Hfiles];
    (split; [exact Hiff|]); (split; [discriminate | intros _; exact Hfiles]).
  unfold main, run_succeeds.
  destruct (fs a1) as [text|] eqn:Hf.
  - destruct (valid (parse uninit text)) eqn:Hv; cbn.
    + split; [split; [intros _; now exists text | reflexivity]|].
      split; [|intros C; now elim C].
      intros prog path [= _ <-] [Hn | (t & Ht & Hv')]; congruence.
    + split; [split; [discriminate | intros (t & [= <-] & Hv'); congruence]|].
      split; reflexivity.
  - cbn. split; [split; [discriminate | intros (t & Ht & _); discriminate]|].
    split; reflexivity.
Qed.

(** An accepted file, a missing file and a rejected file. *)
Lemma exit_status_spec_witness :
  exit_status (main false (fun _ => 0) ["ailang"; "m.ail"]
                 (one_file "m.ail" spaced1)) = Exit 0
  /\ exit_status (main false (fun _ => 0) ["ailang"; "m.ail"]
                    (one_file "other.ail" spaced1)) = Exit 1
  /\ files (main false (fun _ => 0) ["ailang"; "m.ail"]
              (one_file "m.ail" scenario1)) = one_file "m.ail" scenario1.
Proof.
  split; [|split].
  - destruct (exit_status_spec false (fun _ => 0) ["ailang"; "m.ail"]
                (one_file "m.ail" spaced1)) as (H & _ & _).
    apply H. exists spaced1. split; reflexivity.
  - destruct (exit_status_spec false (fun _ => 0) ["ailang"; "m.ail"]
                (one_file "other.ail" spaced1)) as (_ & H & _).
    apply (H "ailang" "m.ail"); [reflexivity | left; reflexivity].
  - destruct (exit_status_spec false (fun _ => 0) ["ailang"; "m.ail"]
                (one_file "m.ail" scenario1)) as (_ & _ & H).
    apply H. vm_compute. discriminate.
Defined.

(** * Further properties of the code *)

(** ** Lines of a text *)

Lemma getlines_line (l rest : string) :
  no_lf l = true -> getlines (l ++ nl ++ rest) = l :: getlines rest.
Proof.
  induction l as [|c l IH]; intros H; [reflexivity|].
  cbn [no_lf] in H. apply andb_true_iff in H as [Hc Hl].
  apply negb_true_iff in Hc.
  cbn [append getlines]. rewrite Hc. fold (l ++ nl ++ rest).
  now rewrite (IH Hl).
Qed.

Lemma getlines_last (s : string) :
  no_lf s = true -> getlines s = if is_empty s then [] else [s].
Proof.
  induction s as [|c s IH]; intros H; [reflexivity|].
  cbn [no_lf] in H. apply andb_true_iff in H as [Hc Hs].
  apply negb_true_iff in Hc.
  cbn [getlines is_empty]. rewrite Hc, (IH Hs).
  destruct s; reflexivity.
Qed.

Lemma getlines_join (ls : list string) (last : string) :
  Forall (fun l => no_lf l = true) ls -> no_lf last = true ->
  getlines (join_lines ls ++ last)
  = (ls ++ if is_empty last then [] else [last])%list.
Proof.
  intros F Hlast. induction F as [|l ls Hl _ IH]; cbn [join_lines].
  - now apply getlines_last.
  - rewrite !append_assoc, getlines_line by assumption.
    now rewrite IH.
Qed.

(** X1.  Reading lines undoes writing them: a text made of lines without LF,
    each closed by LF, followed by a last piece without LF, is handed to the
    loop body as exactly these lines, the last piece included only when it
    is not empty; the loop runs through with any fuel beyond the length of
    the text. *)
Theorem lines_round_trip (ls : list string) (last : string) (fuel : nat) :
  Forall (fun l => no_lf l = true) ls -> no_lf last = true ->
  (String.length (join_lines ls ++ last) < fuel)%nat ->
  getlines (join_lines ls ++ last)
    = (ls ++ if is_empty last then [] else [last])%list
  /\ getline_loop fuel (istringstream (join_lines ls ++ last)) EmptyString
     = (ls ++ if is_empty last then [] else [last])%list.
Proof.
  intros F Hlast Hfuel. split.
  - now apply getlines_join.
  - rewrite getline_loop_getlines by assumption. now apply getlines_join.
Qed.

(** Two closed lines and an open one. *)
Lemma lines_round_trip_witness :
  getlines (join_lines ["model M {"; EmptyString] ++ "}")
    = (["model M {"; EmptyString] ++ ["}"])%list
  /\ getline_loop 20 (istringstream (join_lines ["model M {"; EmptyString] ++ "}"))
       EmptyString
     = (["model M {"; EmptyString] ++ ["}"])%list.
Proof.
  apply (lines_round_trip ["model M {"; EmptyString] "}" 20).
  - repeat constructor.
  - reflexivity.
  - vm_compute. lia.
Defined.

(** ** Documents without a recognised line *)

Lemma process_line_skipped (u : Z) (st : parse_state) (l : string) :
  blank_or_indented l = true -> process_line u st l = st.
Proof.
  destruct l as [|c l]; intros H; [reflexivity|].
  now apply process_line_indented.
Qed.

(** X2.  A readable document in which every line is empty or begins with
    white space leaves the parse at its initial state; the run is rejected
    with status 1 and writes no file.  The empty document is one of them. *)
Theorem blank_document_rejected (ndebug : bool) (uninit : nat -> Z)
    (prog path text : string) (fs : filesystem) :
  fs path = Some text ->
  Forall (fun l => blank_or_indented l = true) (getlines text) ->
  parse uninit text = parse_init
  /\ exit_status (main ndebug uninit [prog; path] fs) = Exit 1
  /\ files (main ndebug uninit [prog; path] fs) = fs.
Proof.
  intros Hf F.
  assert (E : parse uninit text = parse_init).
  { unfold parse, parse_lines. generalize 0%nat.
    induction F as [|l ls Hl _ IH]; intros k; [reflexivity|].
    cbn [parse_from]. now rewrite process_line_skipped, IH. }
  split; [exact E|].
  rewrite (main_rejects _ _ _ _ _ _ Hf) by (rewrite E; reflexivity).
  split; reflexivity.
Qed.

Lemma blank_document_rejected_witness :
  parse (fun _ => 0) testInput = parse_init
  /\ exit_status (main false (fun _ => 0) ["ailang"; "t.ail"]
                    (one_file "t.ail" testInput)) = Exit 1
  /\ files (main false (fun _ => 0) ["ailang"; "t.ail"]
              (one_file "t.ail" testInput)) = one_file "t.ail" testInput.
Proof.
  apply blank_document_rejected with (text := testInput).
  - reflexivity.
  - eval_lines. repeat constructor.
Defined.

(** ** Layers in document order *)

Lemma process_line_layers (u : Z) (st : parse_state) (l : string) :
  layers (process_line u st l)
  = (layers st ++ layers (process_line u parse_init l))%list.
Proof.
  unfold process_line.
  destruct (find_at_0 l "model");
    [split_pairs; cbn; now rewrite app_nil_r|].
  destruct (find_at_0 l "input");
    [split_pairs; cbn; now rewrite app_nil_r|].
  destruct (find_at_0 l "layer");
    [split_pairs; reflexivity | cbn; now rewrite app_nil_r].
Qed.

Lemma process_line_layers_count (u : Z) (st : parse_state) (l : string) :
  length (layers (process_line u st l))
  = (length (layers st) + if find_at_0 l "layer" then 1 else 0)%nat.
Proof.
  destruct (find_at_0 l "layer") eqn:H.
  - destruct (process_line_layer u st l H) as (units & act & -> & _).
    cbn [layers]. rewrite length_app. reflexivity.
  - rewrite process_line_layers_kept by assumption. lia.
Qed.

Lemma parse_from_layers (uninit : nat -> Z) (ls : list string) (k : nat)
    (st : parse_state) :
  layers (parse_from uninit k st ls)
  = (layers st ++ layers (parse_from uninit k parse_init ls))%list
  /\ length (layers (parse_from uninit k st ls))
     = (length (layers st)
        + length (filter (fun l => find_at_0 l "layer") ls))%nat.
Proof.
  revert k st. induction ls as [|l ls IH]; intros k st; cbn [parse_from filter].
  - cbn. rewrite app_nil_r. split; [reflexivity | lia].
  - destruct (IH (S k) (process_line (uninit k) st l)) as [E1 E2].
    destruct (IH (S k) (process_line (uninit k) parse_init l)) as [E3 _].
    split.
    + rewrite E1, E3, process_line_layers, app_assoc. reflexivity.
    + rewrite E2, process_line_layers_count.
      destruct (find_at_0 l "layer"); cbn [length]; lia.
Qed.

(** X3.  Layers come out in document order, one per [layer] line: the
    layers of two pieces of a document read one after the other are the
    layers of the first followed by the layers of the second read on its
    own, and their number is the number of lines that begin with [layer]. *)
Theorem layers_follow_document (uninit : nat -> Z) (a b : list string) :
  layers (parse_lines uninit (a ++ b))
    = (layers (parse_lines uninit a)
       ++ layers (parse_from uninit (length a) parse_init b))%list
  /\ length (layers (parse_lines uninit a))
     = length (filter (fun l => find_at_0 l "layer") a).
Proof.
  unfold parse_lines. rewrite parse_from_app. split.
  - apply parse_from_layers.
  - now rewrite (proj2 (parse_from_layers uninit a 0 parse_init)).
Qed.

(** ** The uninitialised local and the lines that are skipped *)

Lemma process_line_unrecognised (u : Z) (st : parse_state) (l : string) :
  recognised l = false -> process_line u st l = st.
Proof.
  unfold recognised, process_line. intros H.
  apply orb_false_iff in H as [H Hl]. apply orb_false_iff in H as [Hm Hi].
  now rewrite Hm, Hi, Hl.
Qed.

Lemma process_line_units_reached (u u' : Z) (st : parse_state) (l : string) :
  units_reached l = true -> process_line u st l = process_line u' st l.
Proof.
  unfold units_reached. intros H.
  destruct (find_at_0 l "layer") eqn:Hl; cbn [negb orb] in H.
  - unfold process_line.
    rewrite (layer_not_model _ Hl), (layer_not_input _ Hl), Hl.
    destruct (get_string (istringstream l) EmptyString) as [k1 s1] eqn:E1.
    destruct (get_string s1 k1) as [k2 s2] eqn:E2.
    assert (Hs2 : skip_keys 2 l = s2).
    { unfold skip_keys. simpl Nat.iter. rewrite E1. simpl snd.
      rewrite (get_string_stream s1 EmptyString k1), E2. reflexivity. }
    unfold line_int in H. rewrite Hs2 in H.
    unfold get_int. destruct (sentry s2) as [[|] s2']; [reflexivity|].
    discriminate H.
  - unfold process_line.
    destruct (find_at_0 l "model"); [reflexivity|].
    destruct (find_at_0 l "input"); [reflexivity|].
    rewrite Hl. reflexivity.
Qed.

(** X4.  The value left in the uninitialised [units] cannot reach the
    result unless some [layer] line ends before its unit count: when every
    [layer] line of a document has a third field, the parse is the same
    whatever the local held. *)
Theorem parse_ignores_uninitialised (uninit uninit' : nat -> Z)
    (ls : list string) :
  Forall (fun l => units_reached l = true) ls ->
  parse_lines uninit ls = parse_lines uninit' ls.
Proof.
  intros F. unfold parse_lines. generalize 0%nat at 1. generalize 0%nat.
  generalize parse_init.
  induction F as [|l ls Hl _ IH]; intros st k k'; [reflexivity|].
  cbn [parse_from].
  rewrite (process_line_units_reached (uninit k') (uninit' k) st l Hl).
  apply IH.
Qed.

Lemma parse_ignores_uninitialised_witness :
  parse_lines (fun _ => 7) (getlines glued_layer)
  = parse_lines (fun k => Z.of_nat k) (getlines glued_layer).
Proof.
  apply parse_ignores_uninitialised. eval_lines. repeat constructor.
Defined.

(** X5.  Lines that begin with none of the three keywords can be deleted:
    in a document whose [layer] lines all have a third field, removing every
    other kind of line (comments, blank lines, the closing brace) leaves the
    parse unchanged. *)
Theorem unrecognised_lines_removable (uninit : nat -> Z) (ls : list string) :
  Forall (fun l => units_reached l = true) ls ->
  parse_lines uninit (filter recognised ls) = parse_lines uninit ls.
Proof.
  intros F. unfold parse_lines. generalize 0%nat at 1. generalize 0%nat.
  generalize parse_init.
  induction F as [|l ls Hl _ IH]; intros st k k'; [reflexivity|].
  cbn [filter parse_from]. destruct (recognised l) eqn:R.
  - cbn [parse_from].
    rewrite (process_line_units_reached (uninit k') (uninit k) st l Hl).
    apply IH.
  - rewrite (process_line_unrecognised _ _ _ R). apply IH.
Qed.

Lemma unrecognised_lines_removable_witness :
  parse_lines (fun _ => 0)
    (filter recognised ("# a comment" :: EmptyString :: getlines spaced1))
  = parse_lines (fun _ => 0) ("# a comment" :: EmptyString :: getlines spaced1).
Proof.
  apply unrecognised_lines_removable. eval_lines. repeat constructor.
Defined.

(** ** Numbers stay in the range of [int] *)

Lemma num_get_range (s : string) :
  INT_MIN <= fst (fst (num_get s)) <= INT_MAX.
Proof.
  unfold num_get.
  destruct (match s with
            | String "-" r0 => (true, r0)
            | String "+" r0 => (false, r0)
            | _ => (false, s)
            end) as [neg body].
  destruct (span_digits 0 false body) as [[mag seen] rest].
  destruct seen; [|cbn; unfold INT_MIN, INT_MAX; lia].
  destruct (Z.ltb_spec (if neg then - mag else mag) INT_MIN);
    [cbn; unfold INT_MIN, INT_MAX; lia|].
  destruct (Z.ltb_spec INT_MAX (if neg then - mag else mag));
    [cbn; unfold INT_MIN, INT_MAX; lia|].
  cbn. lia.
Qed.

Lemma line_int_range (n : nat) (l : string) (v : Z) (f : bool) :
  line_int n l = Some (v, f) -> INT_MIN <= v <= INT_MAX.
Proof.
  unfold line_int. destruct (sentry (skip_keys n l)) as [[|] s]; [|discriminate].
  pose proof (num_get_range (buf s)) as R.
  destruct (num_get (buf s)) as [[v' f'] r]. intros [= <- _]. exact R.
Qed.

Lemma process_line_size_range (u : Z) (st : parse_state) (l : string) :
  INT_MIN <= inputSize st <= INT_MAX ->
  INT_MIN <= inputSize (process_line u st l) <= INT_MAX.
Proof.
  intros R. destruct (find_at_0 l "input") eqn:Hi.
  - rewrite process_line_input by assumption. cbn [inputSize].
    unfold line_size. destruct (line_int 3 l) as [[v f]|] eqn:E; [|exact R].
    exact (line_int_range _ _ _ _ E).
  - now rewrite process_line_size_kept.
Qed.

Lemma process_line_units_range (u : Z) (st : parse_state) (l : string) :
  INT_MIN <= u <= INT_MAX ->
  Forall (fun x => INT_MIN <= fst x <= INT_MAX) (layers st) ->
  Forall (fun x => INT_MIN <= fst x <= INT_MAX) (layers (process_line u st l)).
Proof.
  intros Ru F. destruct (find_at_0 l "layer") eqn:Hl.
  - destruct (process_line_layer u st l Hl)
      as (units & act & -> & _ & Hv & Hnone).
    cbn [layers]. apply Forall_app. split; [exact F|].
    constructor; [|constructor]. cbn [fst].
    destruct (line_int 2 l) as [[v f]|] eqn:E.
    + destruct (Hv v f eq_refl) as [-> _]. exact (line_int_range _ _ _ _ E).
    + now rewrite (Hnone eq_refl).
  - now rewrite process_line_layers_kept.
Qed.

(** X6.  Whatever the document, the parsed input size lies in the range of
    [int], and so does every unit count as long as the uninitialised local
    did. *)
Theorem parsed_numbers_fit_int (uninit : nat -> Z) (text : string) :
  INT_MIN <= inputSize (parse uninit text) <= INT_MAX
  /\ ((forall k, INT_MIN <= uninit k <= INT_MAX) ->
      Forall (fun x => INT_MIN <= fst x <= INT_MAX)
             (layers (parse uninit text))).
Proof.
  unfold parse, parse_lines.
  assert (H : forall ls k st,
             INT_MIN <= inputSize st <= INT_MAX ->
             INT_MIN <= inputSize (parse_from uninit k st ls) <= INT_MAX).
  { induction ls as [|l ls IH]; intros k st R; [exact R|].
    cbn [parse_from]. apply IH. now apply process_line_size_range. }
  split; [apply H; cbn; unfold INT_MIN, INT_MAX; lia|].
  intros Ru.
  assert (G : forall ls k st,
             Forall (fun x => INT_MIN <= fst x <= INT_MAX) (layers st) ->
             Forall (fun x => INT_MIN <= fst x <= INT_MAX)
                    (layers (parse_from uninit k st ls))).
  { induction ls as [|l ls IH]; intros k st F; [exact F|].
    cbn [parse_from]. apply IH. now apply process_line_units_range. }
  apply G. constructor.
Qed.

Lemma parsed_numbers_fit_int_witness :
  INT_MIN <= inputSize (parse (fun _ => 0) ("input: size = 99999999999" ++ nl))
          <= INT_MAX
  /\ Forall (fun x => INT_MIN <= fst x <= INT_MAX)
            (layers (parse (fun _ => 0) (huge_units_line ++ nl))).
Proof.
  split.
  - apply (parsed_numbers_fit_int (fun _ => 0)).
  - apply (parsed_numbers_fit_int (fun _ => 0)).
    intros k. unfold INT_MIN, INT_MAX. lia.
Defined.

(** ** Words have no white space *)

Lemma span_word_no_space (s : string) : no_space (fst (span_word s)) = true.
Proof.
  induction s as [|c s IH]; [reflexivity|].
  cbn [span_word]. destruct (isspace c) eqn:Hc; [reflexivity|].
  destruct (span_word s) as [w r]. cbn [fst no_space] in *.
  now rewrite Hc, IH.
Qed.

Lemma get_string_no_space (s : istream) (o : string) :
  no_space o = true -> no_space (fst (get_string s o)) = true.
Proof.
  intros Ho. unfold get_string. destruct (sentry s) as [[|] s1]; [|exact Ho].
  pose proof (span_word_no_space (buf s1)) as H.
  destruct (span_word (buf s1)) as [w r]. exact H.
Qed.

Lemma process_line_no_space (u : Z) (st : parse_state) (l : string) :
  no_space (modelName st) = true ->
  Forall (fun x => no_space (snd x) = true) (layers st) ->
  no_space (modelName (process_line u st l)) = true
  /\ Forall (fun x => no_space (snd x) = true) (layers (process_line u st l)).
Proof.
  intros Hn F. unfold process_line.
  destruct (find_at_0 l "model").
  - destruct (get_string (istringstream l) EmptyString) as [k1 s1].
    pose proof (get_string_no_space s1 (modelName st) Hn) as H.
    destruct (get_string s1 (modelName st)) as [name s2]. split; assumption.
  - destruct (find_at_0 l "input"); [split_pairs; split; assumption|].
    destruct (find_at_0 l "layer"); [|split; assumption].
    destruct (get_string (istringstream l) EmptyString) as [k1 s1].
    destruct (get_string s1 k1) as [k2 s2].
    destruct (get_int s2 u) as [units s3].
    destruct (get_string s3 k2) as [k4 s4].
    destruct (get_string s4 k4) as [k5 s5].
    pose proof (get_string_no_space s5 EmptyString eq_refl) as H.
    destruct (get_string s5 EmptyString) as [act s6].
    split; [exact Hn|]. cbn [layers]. apply Forall_app. split; [exact F|].
    constructor; [exact H | constructor].
Qed.

(** X7.  A parsed model name holds no white space, and neither does any
    parsed activation string: each is empty or one word of its line.  So the
    class name written by the emitters and the name of the output file are
    free of white space. *)
Theorem parsed_words_have_no_space (uninit : nat -> Z) (text : string) :
  no_space (modelName (parse uninit text)) = true
  /\ Forall (fun x => no_space (snd x) = true) (layers (parse uninit text)).
Proof.
  unfold parse, parse_lines.
  assert (H : forall ls k st,
             no_space (modelName st) = true ->
             Forall (fun x => no_space (snd x) = true) (layers st) ->
             no_space (modelName (parse_from uninit k st ls)) = true
             /\ Forall (fun x => no_space (snd x) = true)
                       (layers (parse_from uninit k st ls))).
  { induction ls as [|l ls IH]; intros k st Hn F; [now split|].
    cbn [parse_from].
    destruct (process_line_no_space (uninit k) st l Hn F) as [Hn' F'].
    now apply IH. }
  apply H; [reflexivity | constructor].
Qed.

(** ** Trailing white space *)

Lemma isspace_not_digit (c : ascii) : isspace c = true -> isdigit c = false.
Proof.
  unfold isspace, isdigit. set (n := nat_of_ascii c).
  rewrite orb_true_iff, andb_true_iff, !Nat.leb_le, Nat.eqb_eq.
  intros H. apply andb_false_iff. rewrite !Nat.leb_gt. lia.
Qed.

Lemma is_empty_snoc (s : string) (c : ascii) :
  is_empty (s ++ String c EmptyString) = false.
Proof. destruct s; reflexivity. Qed.

Lemma skipws_snoc (c : ascii) (b : string) :
  isspace c = true ->
  skipws (b ++ String c EmptyString)
  = match skipws b with
    | EmptyString => EmptyString
    | String a r => String a r ++ String c EmptyString
    end.
Proof.
  intros Hc. induction b as [|x b IH]; cbn [append skipws].
  - now rewrite Hc.
  - destruct (isspace x); [exact IH | reflexivity].
Qed.

Lemma span_word_snoc (c : ascii) (x : string) :
  isspace c = true ->
  span_word (x ++ String c EmptyString)
  = (fst (span_word x), snd (span_word x) ++ String c EmptyString).
Proof.
  intros Hc. induction x as [|a x IH]; cbn [append span_word].
  - now rewrite Hc.
  - destruct (isspace a); [reflexivity|].
    rewrite IH. destruct (span_word x); reflexivity.
Qed.

Lemma span_digits_snoc (c : ascii) (x : string) (acc : Z) (seen : bool) :
  isspace c = true ->
  span_digits acc seen (x ++ String c EmptyString)
  = (fst (span_digits acc seen x),
     snd (span_digits acc seen x) ++ String c EmptyString).
Proof.
  intros Hc. revert acc seen.
  induction x as [|a x IH]; intros acc seen; cbn [append span_digits].
  - now rewrite (isspace_not_digit _ Hc).
  - destruct (isdigit a); [apply IH | reflexivity].
Qed.

Lemma sign_snoc (a c : ascii) (x : string) :
  match String a (x ++ String c EmptyString) with
  | String "-" r => (true, r)
  | String "+" r => (false, r)
  | _ => (false, String a (x ++ String c EmptyString))
  end
  = (fst match String a x with
         | String "-" r => (true, r)
         | String "+" r => (false, r)
         | _ => (false, String a x)
         end,
     snd match String a x with
         | String "-" r => (true, r)
         | String "+" r => (false, r)
         | _ => (false, String a x)
         end ++ String c EmptyString).
Proof. destruct a as [[] [] [] [] [] [] [] []]; reflexivity. Qed.

Lemma num_get_snoc (a c : ascii) (x : string) :
  isspace c = true ->
  num_get (String a x ++ String c EmptyString)
  = (fst (num_get (String a x)),
     snd (num_get (String a x)) ++ String c EmptyString).
Proof.
  intros Hc. unfold num_get. cbn [append]. rewrite sign_snoc.
  destruct (match String a x with
            | String "-" r => (true, r)
            | String "+" r => (false, r)
            | _ => (false, String a x)
            end) as [neg body].
  cbn [fst snd]. rewrite span_digits_snoc by assumption.
  destruct (span_digits 0 false body) as [[mag seen] rest]. cbn [fst snd].
  destruct seen; [|reflexivity].
  destruct ((if neg then - mag else mag) <? INT_MIN); [reflexivity|].
  destruct (INT_MAX <? (if neg then - mag else mag)); reflexivity.
Qed.

Lemma trails_failed (c : ascii) (b b' : string) (e e' : bool) :
  trails c (mkIstream b e true) (mkIstream b' e' true).
Proof. split; [reflexivity | discriminate]. Qed.

Lemma sentry_good (b : string) :
  sentry (mkIstream b false false)
  = match skipws b with
    | EmptyString => (false, mkIstream EmptyString true true)
    | String a r => (true, mkIstream (String a r) false false)
    end.
Proof. unfold sentry. cbn. destruct (skipws b); reflexivity. Qed.

Lemma sentry_good_snoc (c : ascii) (b : string) :
  isspace c = true ->
  sentry (mkIstream (b ++ String c EmptyString) false false)
  = match skipws b with
    | EmptyString => (false, mkIstream EmptyString true true)
    | String a r =>
        (true, mkIstream (String a r ++ String c EmptyString) false false)
    end.
Proof.
  intros Hc. rewrite sentry_good, skipws_snoc by assumption.
  destruct (skipws b); reflexivity.
Qed.

Lemma sentry_at_end (b : string) (f : bool) :
  sentry (mkIstream b true f) = (false, mkIstream b true true).
Proof. reflexivity. Qed.

Lemma sentry_space (c : ascii) :
  isspace c = true ->
  sentry (mkIstream (String c EmptyString) false false)
  = (false, mkIstream EmptyString true true).
Proof. intros Hc. rewrite sentry_good. cbn [skipws]. now rewrite Hc. Qed.

Lemma get_string_trails (c : ascii) (s s' : istream) (o : string) :
  isspace c = true -> trails c s s' ->
  fst (get_string s o) = fst (get_string s' o)
  /\ trails c (snd (get_string s o)) (snd (get_string s' o)).
Proof.
  intros Hc. destruct s as [b e f], s' as [b' e' f'].
  unfold trails. cbn [buf eofbit failbit]. intros [-> H].
  destruct f.
  - rewrite !get_string_failed by reflexivity. split; [reflexivity|].
    apply trails_failed.
  - destruct (H eq_refl) as (-> & -> & He). destruct e.
    + rewrite (He eq_refl). unfold get_string. cbn [append].
      rewrite sentry_at_end, sentry_space by assumption.
      split; [reflexivity | apply trails_failed].
    + unfold get_string. rewrite sentry_good, sentry_good_snoc by assumption.
      destruct (skipws b) as [|a r]; [split; [reflexivity | apply trails_failed]|].
      cbn [buf]. rewrite span_word_snoc by assumption.
      destruct (span_word (String a r)) as [w rest]. cbn [fst snd].
      split; [reflexivity|]. split; [reflexivity|].
      cbn [failbit eofbit buf]. intros _.
      split; [apply is_empty_snoc|]. split; [reflexivity|].
      destruct rest; [reflexivity | discriminate].
Qed.

Lemma get_int_trails (c : ascii) (s s' : istream) (o : Z) :
  isspace c = true -> trails c s s' ->
  fst (get_int s o) = fst (get_int s' o)
  /\ trails c (snd (get_int s o)) (snd (get_int s' o)).
Proof.
  intros Hc. destruct s as [b e f], s' as [b' e' f'].
  unfold trails. cbn [buf eofbit failbit]. intros [-> H].
  destruct f.
  - unfold get_int, sentry, good. cbn [buf eofbit failbit negb andb].
    rewrite !andb_false_r. split; [reflexivity | apply trails_failed].
  - destruct (H eq_refl) as (-> & -> & He). destruct e.
    + rewrite (He eq_refl). unfold get_int. cbn [append].
      rewrite sentry_at_end, sentry_space by assumption.
      split; [reflexivity | apply trails_failed].
    + unfold get_int. rewrite sentry_good, sentry_good_snoc by assumption.
      destruct (skipws b) as [|a r]; [split; [reflexivity | apply trails_failed]|].
      cbn [buf]. rewrite num_get_snoc by assumption.
      destruct (num_get (String a r)) as [[v fl] rest]. cbn [fst snd].
      split; [reflexivity|]. split; [reflexivity|].
      cbn [failbit eofbit buf]. intros _.
      split; [apply is_empty_snoc|]. split; [reflexivity|].
      destruct rest; [reflexivity | discriminate].
Qed.

Lemma prefix_snoc (c : ascii) (kw l : string) :
  isspace c = true -> no_space kw = true ->
  prefix kw (l ++ String c EmptyString) = prefix kw l.
Proof.
  intros Hc. revert l. induction kw as [|a kw IH]; intros l Hkw.
  - destruct l; reflexivity.
  - cbn [no_space] in Hkw. apply andb_true_iff in Hkw as [Ha Hkw].
    apply negb_true_iff in Ha.
    destruct l as [|b l]; cbn [append].
    + change (prefix (String a kw) (String c EmptyString))
        with (if ascii_dec a c then prefix kw EmptyString else false).
      destruct (ascii_dec a c) as [->|]; [congruence | reflexivity].
    + change (prefix (String a kw) (String b (l ++ String c EmptyString)))
        with (if ascii_dec a b then prefix kw (l ++ String c EmptyString)
              else false).
      change (prefix (String a kw) (String b l))
        with (if ascii_dec a b then prefix kw l else false).
      destruct (ascii_dec a b); [now apply IH | reflexivity].
Qed.

Lemma process_line_snoc (u : Z) (st : parse_state) (l : string) (c : ascii) :
  isspace c = true ->
  process_line u st (l ++ String c EmptyString) = process_line u st l.
Proof.
  intros Hc. unfold process_line.
  rewrite !find_at_0_prefix, !prefix_snoc by (assumption || reflexivity).
  assert (T0 : trails c (istringstream l)
                 (istringstream (l ++ String c EmptyString))).
  { split; [reflexivity|]. intros _. repeat split. discriminate. }
  destruct (prefix "model" l).
  - destruct (get_string_trails c _ _ EmptyString Hc T0) as [E1 T1].
    destruct (get_string (istringstream l) EmptyString) as [k1 s1].
    destruct (get_string (istringstream (l ++ String c EmptyString)) EmptyString)
      as [k1' s1']. cbn [fst snd] in E1, T1. subst k1'.
    destruct (get_string_trails c _ _ (modelName st) Hc T1) as [E2 _].
    destruct (get_string s1 (modelName st)) as [n s2].
    destruct (get_string s1' (modelName st)) as [n' s2'].
    cbn [fst] in E2. now subst n'.
  - destruct (prefix "input" l).
    + destruct (get_string_trails c _ _ EmptyString Hc T0) as [E1 T1].
      destruct (get_string (istringstream l) EmptyString) as [k1 s1].
      destruct (get_string (istringstream (l ++ String c EmptyString))
                  EmptyString) as [k1' s1'].
      cbn [fst snd] in E1, T1. subst k1'.
      destruct (get_string_trails c _ _ k1 Hc T1) as [E2 T2].
      destruct (get_string s1 k1) as [k2 s2].
      destruct (get_string s1' k1) as [k2' s2'].
      cbn [fst snd] in E2, T2. subst k2'.
      destruct (get_string_trails c _ _ k2 Hc T2) as [E3 T3].
      destruct (get_string s2 k2) as [k3 s3].
      destruct (get_string s2' k2) as [k3' s3'].
      cbn [fst snd] in E3, T3. subst k3'.
      destruct (get_int_trails c _ _ (inputSize st) Hc T3) as [E4 _].
      destruct (get_int s3 (inputSize st)) as [v s4].
      destruct (get_int s3' (inputSize st)) as [v' s4'].
      cbn [fst] in E4. now subst v'.
    + destruct (prefix "layer" l); [|reflexivity].
      destruct (get_string_trails c _ _ EmptyString Hc T0) as [E1 T1].
      destruct (get_string (istringstream l) EmptyString) as [k1 s1].
      destruct (get_string (istringstream (l ++ String c EmptyString))
                  EmptyString) as [k1' s1'].
      cbn [fst snd] in E1, T1. subst k1'.
      destruct (get_string_trails c _ _ k1 Hc T1) as [E2 T2].
      destruct (get_string s1 k1) as [k2 s2].
      destruct (get_string s1' k1) as [k2' s2'].
      cbn [fst snd] in E2, T2. subst k2'.
      destruct (get_int_trails c _ _ u Hc T2) as [E3 T3].
      destruct (get_int s2 u) as [v s3].
      destruct (get_int s2' u) as [v' s3'].
      cbn [fst snd] in E3, T3. subst v'.
      destruct (get_string_trails c _ _ k2 Hc T3) as [E4 T4].
      destruct (get_string s3 k2) as [k4 s4].
      destruct (get_string s3' k2) as [k4' s4'].
      cbn [fst snd] in E4, T4. subst k4'.
      destruct (get_string_trails c _ _ k4 Hc T4) as [E5 T5].
      destruct (get_string s4 k4) as [k5 s5].
      destruct (get_string s4' k4) as [k5' s5'].
      cbn [fst snd] in E5, T5. subst k5'.
      destruct (get_string_trails c _ _ EmptyString Hc T5) as [E6 _].
      destruct (get_string s5 EmptyString) as [act s6].
      destruct (get_string s5' EmptyString) as [act' s6'].
      cbn [fst] in E6. now subst act'.
Qed.

Lemma process_line_trailing (u : Z) (st : parse_state) (ws l : string) :
  all_space ws = true -> process_line u st (l ++ ws) = process_line u st l.
Proof.
  revert l. induction ws as [|c ws IH]; intros l H.
  - now rewrite append_nil_r.
  - cbn [all_space] in H. apply andb_true_iff in H as [Hc Hws].
    change (String c ws) with (String c EmptyString ++ ws).
    rewrite <- append_assoc, (IH _ Hws). now apply process_line_snoc.
Qed.

(** X8.  White space at the end of a line does not count: two documents
    whose lines differ only by trailing white space parse alike.  A carriage
    return is white space, so a document with CR LF line ends parses as the
    same document with LF line ends. *)
Theorem trailing_space_ignored (uninit : nat -> Z) (ls ls' : list string) :
  Forall2 (fun l l' => exists ws, all_space ws = true /\ l' = l ++ ws) ls ls' ->
  parse_lines uninit ls' = parse_lines uninit ls.
Proof.
  unfold parse_lines. generalize 0%nat parse_init.
  intros k st F. revert k st.
  induction F as [|l l' ls ls' (ws & Hws & ->) _ IH]; intros k st;
    [reflexivity|].
  cbn [parse_from]. now rewrite process_line_trailing, IH.
Qed.

Lemma trailing_space_ignored_witness :
  parse_lines (fun _ => 0)
    ["model M {" ++ String "013" EmptyString;
     "input: size = 4" ++ String "013" EmptyString;
     "layer: units= 8 , activation= " ++ relu_lit ++ String "013" EmptyString]
  = parse_lines (fun _ => 0)
      ["model M {"; "input: size = 4";
       "layer: units= 8 , activation= " ++ relu_lit].
Proof.
  apply trailing_space_ignored.
  repeat constructor;
    (exists (String "013" EmptyString); split;
     [reflexivity | now rewrite ?append_assoc]).
Defined.

(** ** Reading back a written number *)

Lemma uint_value_pos (d : Decimal.uint) (acc : positive) :
  Z.pos (Pos.of_uint_acc d acc) = uint_value (Z.pos acc) d.
Proof.
  revert acc. induction d; intros acc; cbn [Pos.of_uint_acc uint_value];
    [reflexivity | rewrite IHd; f_equal; lia ..].
Qed.

Lemma uint_value_of_uint (d : Decimal.uint) :
  Z.of_N (Pos.of_uint d) = uint_value 0 d.
Proof.
  induction d; cbn [Pos.of_uint uint_value Z.of_N];
    [reflexivity | exact IHd | apply uint_value_pos ..].
Qed.

Lemma span_digits_ends (acc : Z) (seen : bool) (rest : string) :
  ends_number rest = true -> span_digits acc seen rest = (acc, seen, rest).
Proof.
  destruct rest as [|c r]; [reflexivity|]. cbn [ends_number span_digits].
  intros H. apply negb_true_iff in H. now rewrite H.
Qed.

Lemma span_digits_uint (d : Decimal.uint) (acc : Z) (seen : bool)
    (rest : string) :
  ends_number rest = true ->
  span_digits acc seen (NilEmpty.string_of_uint d ++ rest)
  = (uint_value acc d,
     match d with Decimal.Nil => seen | _ => true end, rest).
Proof.
  intros Hr. revert acc seen.
  induction d; intros acc seen;
    cbn [NilEmpty.string_of_uint append uint_value];
    [now apply span_digits_ends | ..];
    cbn [span_digits]; change (isdigit _) with true; cbv iota;
    rewrite IHd; destruct d; reflexivity.
Qed.

Lemma saturate_flag (v : Z) :
  (if v <? INT_MIN then (INT_MIN, true)
   else if INT_MAX <? v then (INT_MAX, true) else (v, false))
  = (saturate v, negb (in_int v)).
Proof.
  unfold saturate, in_int.
  destruct (Z.ltb_spec v INT_MIN), (Z.ltb_spec INT_MAX v),
    (Z.leb_spec INT_MIN v), (Z.leb_spec v INT_MAX);
    try reflexivity; unfold INT_MIN, INT_MAX in *; lia.
Qed.

(** The decimal text of a positive number starts with a digit. *)
Lemma pos_digits_head (p : positive) (rest : string) :
  match NilZero.string_of_uint (Pos.to_uint p) ++ rest with
  | String "-" r => (true, r)
  | String "+" r => (false, r)
  | _ => (false, NilZero.string_of_uint (Pos.to_uint p) ++ rest)
  end = (false, NilEmpty.string_of_uint (Pos.to_uint p) ++ rest)
  /\ Pos.to_uint p <> Decimal.Nil
  /\ skipws (NilZero.string_of_uint (Pos.to_uint p) ++ rest)
     = NilEmpty.string_of_uint (Pos.to_uint p) ++ rest.
Proof.
  pose proof (DecimalPos.Unsigned.to_uint_nonnil p) as H.
  destruct (Pos.to_uint p); [now elim H | repeat split; assumption ..].
Qed.

(** Conversion of the decimal text of [v], whatever follows it as long as
    that is no digit: the value comes back, cut to the range of [int]. *)
Lemma num_get_show (v : Z) (rest : string) :
  ends_number rest = true ->
  num_get (show_int v ++ rest) = (saturate v, negb (in_int v), rest).
Proof.
  intros Hr. unfold num_get, show_int.
  destruct v as [|p|p]; cbn [Z.to_int NilZero.string_of_int].
  - cbn [N.to_uint NilZero.string_of_uint NilEmpty.string_of_uint append].
    cbn [span_digits]. change (isdigit "0") with true. cbv iota.
    rewrite span_digits_ends by assumption. reflexivity.
  - destruct (pos_digits_head p rest) as (-> & Hn & _).
    rewrite span_digits_uint by assumption.
    rewrite <- uint_value_of_uint, DecimalPos.Unsigned.of_to.
    destruct (Pos.to_uint p); [now elim Hn | ..];
      cbn [Z.of_N]; pose proof (saturate_flag (Z.pos p)) as S;
      destruct (Z.pos p <? INT_MIN);
      [injection S as <- <-; reflexivity
      |destruct (INT_MAX <? Z.pos p); injection S as <- <-; reflexivity ..].
  - cbn [append]. fold (NilZero.string_of_uint (Pos.to_uint p) ++ rest).
    destruct (pos_digits_head p rest) as (_ & Hn & _).
    assert (E : NilZero.string_of_uint (Pos.to_uint p)
                = NilEmpty.string_of_uint (Pos.to_uint p))
      by (destruct (Pos.to_uint p); [now elim Hn | reflexivity ..]).
    rewrite E, span_digits_uint by assumption.
    rewrite <- uint_value_of_uint, DecimalPos.Unsigned.of_to.
    destruct (Pos.to_uint p); [now elim Hn | ..];
      cbn [Z.of_N Z.opp]; pose proof (saturate_flag (Z.neg p)) as S;
      destruct (Z.neg p <? INT_MIN);
      [injection S as <- <-; reflexivity
      |destruct (INT_MAX <? Z.neg p); injection S as <- <-; reflexivity ..].
Qed.

Lemma show_int_no_lead (v : Z) (rest : string) :
  exists a r, show_int v ++ rest = String a r /\ isspace a = false.
Proof.
  unfold show_int. destruct v as [|p|p]; cbn [Z.to_int NilZero.string_of_int].
  - now exists "0"%char, rest.
  - pose proof (DecimalPos.Unsigned.to_uint_nonnil p) as H.
    destruct (Pos.to_uint p); [now elim H | eexists; eexists; split;
      [reflexivity | reflexivity] ..].
  - eexists; eexists; split; [reflexivity | reflexivity].
Qed.

Lemma skipws_all_space (ws x : string) :
  all_space ws = true -> skipws (ws ++ x) = skipws x.
Proof.
  induction ws as [|c ws IH]; intros H; [reflexivity|].
  cbn [all_space] in H. apply andb_true_iff in H as [Hc Hws].
  cbn [append skipws]. rewrite Hc. now apply IH.
Qed.

Lemma span_word_word (w rest : string) :
  no_space w = true -> ends_word rest = true ->
  span_word (w ++ rest) = (w, rest).
Proof.
  intros Hw Hr. induction w as [|a w IH]; cbn [append].
  - destruct rest as [|c r]; [reflexivity|].
    cbn [ends_word] in Hr. cbn [span_word]. now rewrite Hr.
  - cbn [no_space] in Hw. apply andb_true_iff in Hw as [Ha Hw].
    apply negb_true_iff in Ha. cbn [span_word]. rewrite Ha.
    now rewrite (IH Hw).
Qed.

(** [>>] on white space, a word, and something that ends the word. *)
Lemma get_string_word (ws w rest o : string) :
  all_space ws = true -> is_word w = true -> ends_word rest = true ->
  get_string (mkIstream (ws ++ w ++ rest) false false) o
  = (w, mkIstream rest (is_empty rest) false).
Proof.
  intros Hws Hw Hr. unfold is_word in Hw.
  apply andb_true_iff in Hw as [Hne Hns].
  destruct w as [|a w]; [discriminate|].
  unfold get_string. rewrite sentry_good, skipws_all_space by assumption.
  cbn [no_space] in Hns. pose proof Hns as Hns'.
  apply andb_true_iff in Hns' as [Ha _]. apply negb_true_iff in Ha.
  cbn [append skipws]. rewrite Ha. cbn [buf].
  change (String a (w ++ rest)) with (String a w ++ rest).
  now rewrite span_word_word.
Qed.

(** [>>] on white space, the decimal text of a number, and something that
    ends the number. *)
Lemma get_int_show (ws : string) (v : Z) (rest : string) (o : Z) :
  all_space ws = true -> ends_number rest = true ->
  get_int (mkIstream (ws ++ show_int v ++ rest) false false) o
  = (saturate v, mkIstream rest (is_empty rest) (negb (in_int v))).
Proof.
  intros Hws Hr. unfold get_int.
  rewrite sentry_good, skipws_all_space by assumption.
  destruct (show_int_no_lead v rest) as (a & r & E & Ha).
  rewrite E. cbn [skipws]. rewrite Ha. cbn [buf]. rewrite <- E.
  now rewrite num_get_show.
Qed.

Lemma saturate_in_int (v : Z) : in_int v = true -> saturate v = v.
Proof.
  unfold in_int, saturate. intros H.
  apply andb_true_iff in H as [H1 H2]. apply Z.leb_le in H1, H2.
  destruct (Z.ltb_spec v INT_MIN); [lia|].
  destruct (Z.ltb_spec INT_MAX v); [lia | reflexivity].
Qed.

Lemma get_string_last (ws w o : string) :
  all_space ws = true -> is_word w = true ->
  get_string (mkIstream (ws ++ w) false false) o
  = (w, mkIstream EmptyString true false).
Proof.
  intros Hws Hw.
  pose proof (get_string_word ws w EmptyString o Hws Hw eq_refl) as H.
  now rewrite append_nil_r in H.
Qed.

Lemma get_int_last (ws : string) (v o : Z) :
  all_space ws = true ->
  get_int (mkIstream (ws ++ show_int v) false false) o
  = (saturate v, mkIstream EmptyString true (negb (in_int v))).
Proof.
  intros Hws.
  pose proof (get_int_show ws v EmptyString o Hws eq_refl) as H.
  now rewrite append_nil_r in H.
Qed.

(** ** Lines in the spaced shape *)

Lemma process_model_line (u : Z) (st : parse_state) (name : string) :
  is_word name = true ->
  process_line u st (model_line name)
  = mkParse name (inputSize st) (layers st).
Proof.
  intros Hn. unfold process_line.
  replace (find_at_0 (model_line name) "model") with true
    by (rewrite find_at_0_prefix; reflexivity).
  rewrite (get_string_word EmptyString "model" (" " ++ name ++ " {"))
    by reflexivity.
  rewrite (get_string_word " " name " {") by (assumption || reflexivity).
  reflexivity.
Qed.

Lemma process_input_line (u : Z) (st : parse_state) (size : Z) :
  process_line u st (input_line size)
  = mkParse (modelName st) (saturate size) (layers st).
Proof.
  unfold process_line.
  replace (find_at_0 (input_line size) "model") with false
    by (rewrite find_at_0_prefix; reflexivity).
  replace (find_at_0 (input_line size) "input") with true
    by (rewrite find_at_0_prefix; reflexivity).
  rewrite (get_string_word EmptyString "input:" (" size = " ++ show_int size))
    by reflexivity.
  rewrite (get_string_word " " "size" (" = " ++ show_int size)) by reflexivity.
  rewrite (get_string_word " " "=" (" " ++ show_int size)) by reflexivity.
  rewrite (get_int_last " " size) by reflexivity.
  reflexivity.
Qed.

Lemma process_layer_line (u0 : Z) (st : parse_state) (u : Z) (a : string) :
  in_int u = true -> is_word a = true ->
  process_line u0 st (layer_line (u, a))
  = mkParse (modelName st) (inputSize st) (layers st ++ [(u, a)]).
Proof.
  intros Hu Ha. unfold process_line.
  replace (find_at_0 (layer_line (u, a)) "model") with false
    by (rewrite find_at_0_prefix; reflexivity).
  replace (find_at_0 (layer_line (u, a)) "input") with false
    by (rewrite find_at_0_prefix; reflexivity).
  replace (find_at_0 (layer_line (u, a)) "layer") with true
    by (rewrite find_at_0_prefix; reflexivity).
  rewrite (get_string_word EmptyString "layer:"
             (" units= " ++ show_int u ++ " , activation= " ++ a))
    by reflexivity.
  rewrite (get_string_word " " "units="
             (" " ++ show_int u ++ " , activation= " ++ a)) by reflexivity.
  rewrite (get_int_show " " u (" , activation= " ++ a)) by reflexivity.
  rewrite Hu.
  rewrite (get_string_word " " "," (" activation= " ++ a)) by reflexivity.
  rewrite (get_string_word " " "activation=" (" " ++ a)) by reflexivity.
  rewrite (get_string_last " " a) by (assumption || reflexivity).
  rewrite (saturate_in_int u Hu). reflexivity.
Qed.

Lemma parse_layer_lines (uninit : nat -> Z) (ls : list (Z * string)) (k : nat)
    (st : parse_state) :
  Forall (fun l => in_int (fst l) = true /\ is_word (snd l) = true) ls ->
  parse_from uninit k st (map layer_line ls)
  = mkParse (modelName st) (inputSize st) (layers st ++ ls).
Proof.
  intros F. revert k st.
  induction F as [|[u a] ls [Hu Ha] _ IH]; intros k st; cbn [map parse_from].
  - rewrite app_nil_r. now destruct st.
  - rewrite process_layer_line by assumption. rewrite IH.
    cbn [modelName inputSize layers]. now rewrite <- app_assoc.
Qed.

(** X9.  A document in the spaced shape is read back in full: the line
    [model NAME {], the line [input: size = N] and one line
    [layer: units= U , activation= A] per layer, closed by a brace, parse to
    the name, the size and the layers in order, for every word NAME, every
    number N (cut to the range of [int] when it lies outside), every U in
    the range of [int] and every word A. *)
Theorem spaced_document_parses (uninit : nat -> Z) (name : string) (size : Z)
    (ls : list (Z * string)) :
  is_word name = true ->
  Forall (fun l => in_int (fst l) = true /\ is_word (snd l) = true) ls ->
  parse_lines uninit (document_lines name size ls)
  = mkParse name (saturate size) ls.
Proof.
  intros Hn F. unfold parse_lines, document_lines. cbn [parse_from].
  rewrite process_model_line by assumption. rewrite process_input_line.
  rewrite parse_from_app, parse_layer_lines by assumption.
  reflexivity.
Qed.

Lemma spaced_document_parses_witness :
  parse_lines (fun _ => 0)
    (document_lines "Net" 3 [(5, relu_lit); (1, "tanh")])
  = mkParse "Net" (saturate 3) [(5, relu_lit); (1, "tanh")].
Proof.
  apply spaced_document_parses.
  - reflexivity.
  - repeat constructor.
Defined.

(** ** The emitted text, one layer at a time *)

Lemma python_decls_nth (ls : list (Z * string)) (k : nat) (cols : Z) (i : nat)
    (u : Z) (a : string) :
  nth_error ls i = Some (u, a) ->
  exists pre post,
    python_decls k cols ls
    = pre ++ python_decl (k + i) u
               match i with
               | O => cols
               | S j => fst (layer_at ls j)
               end
          ++ post.
Proof.
  revert k cols i. induction ls as [|[u0 a0] rest IH]; intros k cols i H.
  - destruct i; discriminate.
  - destruct i as [|j]; cbn [nth_error] in H.
    + injection H as -> ->. exists EmptyString, (python_decls (S k) u rest).
      cbn [python_decls append]. now rewrite Nat.add_0_r.
    + destruct (IH (S k) u0 j H) as (pre & post & E).
      exists (python_decl k u0 cols ++ pre), post.
      cbn [python_decls]. rewrite E, !append_assoc.
      replace (S k + j)%nat with (k + S j)%nat by lia.
      destruct j; reflexivity.
Qed.

Lemma eigen_blocks_nth (ls : list (Z * string)) (k i : nat) (u : Z)
    (a : string) :
  nth_error ls i = Some (u, a) ->
  exists pre post,
    eigen_blocks k ls
    = pre ++ (eigen_affine (k + i) u ++ eigen_activation (activation_kind a)
              ++ nl) ++ post.
Proof.
  revert k i. induction ls as [|[u0 a0] rest IH]; intros k i H.
  - destruct i; discriminate.
  - destruct i as [|j]; cbn [nth_error] in H.
    + injection H as -> ->. exists EmptyString, (eigen_blocks (S k) rest).
      cbn [eigen_blocks append]. now rewrite Nat.add_0_r, !append_assoc.
    + destruct (IH (S k) j H) as (pre & post & E).
      exists (eigen_affine k u0 ++ eigen_activation (activation_kind a0)
              ++ nl ++ pre), post.
      cbn [eigen_blocks]. rewrite E, !append_assoc.
      replace (S k + j)%nat with (k + S j)%nat by lia. reflexivity.
Qed.

(** X10.  For every layer of every model, at position [i] (from 0) with [u]
    units: the numpy text holds the declaration of weight [i+1] with shape
    ([u], input size) for the first layer and ([u], units of the layer
    before) for the others, followed by the bias of shape ([u]); the Eigen
    text holds the block of layer [i+1], with [u] rows for the weight, [u]
    entries for the bias, the affine step and then the expression of the
    layer's activation. *)
Theorem every_layer_is_emitted (name : string) (s : Z) (ls : list (Z * string))
    (i : nat) (u : Z) (a : string) :
  nth_error ls i = Some (u, a) ->
  (exists pre post,
      pythonCode name s ls
      = pre ++ python_decl (i + 1) u
                 match i with
                 | O => s
                 | S j => fst (layer_at ls j)
                 end
            ++ post)
  /\ (exists pre post,
         generateModelClass_text name s ls
         = pre ++ (eigen_affine (i + 1) u
                   ++ eigen_activation (activation_kind a) ++ nl) ++ post).
Proof.
  intros H. split.
  - destruct (python_decls_nth ls 1 s i u a H) as (pre & post & E).
    exists (python_prologue name ++ pre),
           (post ++ python_middle ++ python_steps 1 ls ++ python_epilogue).
    rewrite pythonCode_blocks, E, !append_assoc.
    now replace (1 + i)%nat with (i + 1)%nat by lia.
  - destruct (eigen_blocks_nth ls 1 i u a H) as (pre & post & E).
    exists (eigen_prologue name ++ pre), (post ++ eigen_epilogue).
    rewrite generateModelClass_text_blocks, E, !append_assoc.
    now replace (1 + i)%nat with (i + 1)%nat by lia.
Qed.

Lemma every_layer_is_emitted_witness :
  (exists pre post,
      pythonCode "TestModel" 4 test_layers
      = pre ++ python_decl (1 + 1) 2 (fst (layer_at test_layers 0)) ++ post)
  /\ (exists pre post,
         generateModelClass_text "TestModel" 4 test_layers
         = pre ++ (eigen_affine (1 + 1) 2
                   ++ eigen_activation (activation_kind sigmoid_lit) ++ nl)
               ++ post).
Proof.
  apply (every_layer_is_emitted "TestModel" 4 test_layers 1 2 sigmoid_lit).
  reflexivity.
Defined.

(** ** What the built-in checks look for, for every model *)

Lemma prefix_append (needle post : string) :
  prefix needle (needle ++ post) = true.
Proof.
  induction needle as [|a n IH]; [now destruct post|].
  cbn [append].
  change (prefix (String a n) (String a (n ++ post)))
    with (if ascii_dec a a then prefix n (n ++ post) else false).
  destruct (ascii_dec a a); [exact IH | congruence].
Qed.

Lemma find_infix (pre needle post : string) :
  find (pre ++ needle ++ post) needle <> None.
Proof.
  unfold find. induction pre as [|c pre IH]; cbn [append].
  - destruct (needle ++ post) as [|b h] eqn:E.
    + destruct needle; [discriminate | discriminate E].
    + change (index 0 needle (String b h))
        with (if prefix needle (String b h) then Some 0%nat
              else match index 0 needle h with
                   | Some n => Some (S n)
                   | None => None
                   end).
      rewrite <- E, prefix_append. discriminate.
  - change (index 0 needle (String c (pre ++ needle ++ post)))
      with (if prefix needle (String c (pre ++ needle ++ post)) then Some 0%nat
            else match index 0 needle (pre ++ needle ++ post) with
                 | Some n => Some (S n)
                 | None => None
                 end).
    destruct (prefix needle (String c (pre ++ needle ++ post)));
      [discriminate|].
    destruct (index 0 needle (pre ++ needle ++ post)); [discriminate|].
    now elim IH.
Qed.

(** X11.  What [testPythonTranspilation] asserts of its one model holds of
    every model: the numpy text holds [class] followed by the model name and
    a [def forward]; the Eigen text likewise holds the class of that name and
    its [forward] method. *)
Theorem class_and_forward_present (name : string) (s : Z)
    (ls : list (Z * string)) :
  find (pythonCode name s ls) ("class " ++ name ++ ":") <> None
  /\ find (pythonCode name s ls) "def forward" <> None
  /\ find (generateModelClass_text name s ls) ("class " ++ name ++ " {")
     <> None
  /\ find (generateModelClass_text name s ls) "Eigen::MatrixXd forward("
     <> None.
Proof.
  rewrite pythonCode_blocks, generateModelClass_text_blocks.
  repeat split.
  - replace (python_prologue name ++ python_decls 1 s ls ++ python_middle
             ++ python_steps 1 ls ++ python_epilogue)
      with (("import numpy as np" ++ nl ++ nl)
            ++ ("class " ++ name ++ ":")
            ++ (nl ++ "    def __init__(self):" ++ nl
                ++ python_decls 1 s ls ++ python_middle
                ++ python_steps 1 ls ++ python_epilogue))
      by (unfold python_prologue; now rewrite !append_assoc).
    apply find_infix.
  - replace (python_prologue name ++ python_decls 1 s ls ++ python_middle
             ++ python_steps 1 ls ++ python_epilogue)
      with ((python_prologue name ++ python_decls 1 s ls ++ nl ++ "    ")
            ++ "def forward"
            ++ ("(self, x):" ++ nl ++ "        x = np.array(x)" ++ nl
                ++ python_steps 1 ls ++ python_epilogue))
      by (unfold python_middle; now rewrite !append_assoc).
    apply find_infix.
  - replace (eigen_prologue name ++ eigen_blocks 1 ls ++ eigen_epilogue)
      with (("#include <Eigen/Dense>" ++ nl ++ nl)
            ++ ("class " ++ name ++ " {")
            ++ (nl ++ "public:" ++ nl ++ "    " ++ name ++ "() {}" ++ nl ++ nl
                ++ "    Eigen::MatrixXd forward(const Eigen::MatrixXd& input) {"
                ++ nl ++ "        Eigen::MatrixXd x = input;" ++ nl
                ++ eigen_blocks 1 ls ++ eigen_epilogue))
      by (unfold eigen_prologue; now rewrite !append_assoc).
    apply find_infix.
  - replace (eigen_prologue name ++ eigen_blocks 1 ls ++ eigen_epilogue)
      with (("#include <Eigen/Dense>" ++ nl ++ nl ++ "class " ++ name ++ " {"
             ++ nl ++ "public:" ++ nl ++ "    " ++ name ++ "() {}" ++ nl ++ nl
             ++ "    ")
            ++ "Eigen::MatrixXd forward("
            ++ ("const Eigen::MatrixXd& input) {"
                ++ nl ++ "        Eigen::MatrixXd x = input;" ++ nl
                ++ eigen_blocks 1 ls ++ eigen_epilogue))
      by (unfold eigen_prologue; now rewrite !append_assoc).
    apply find_infix.
Qed.

(** ** Runs of [main] *)



(** X13.  Started with anything but exactly one argument, the program runs
    its two checks and touches no file.  In a build with assertions the first
    check stops it, since [testParser] indents its document: the run is
    aborted before anything is printed.  In a build with [NDEBUG] both
    checks print their message and the status is 0. *)
Theorem self_check_run (ndebug : bool) (uninit : nat -> Z) (argv : list string)
    (fs : filesystem) :
  length argv <> 2%nat ->
  let r := main ndebug uninit argv fs in
  files r = fs
  /\ exit_status r = (if ndebug then Exit 0 else Aborted)
  /\ cout r = (if ndebug
               then "Parser test passed." ++ nl
                    ++ "Python transpilation test passed." ++ nl
               else EmptyString).
Proof.
  intros Hlen.
  assert (Ha : testParser_asserts uninit = false) by (vm_compute; reflexivity).
  destruct argv as [|a0 [|a1 [|a2 rest]]]; cbn zeta;
    try (cbn [length] in Hlen; now elim Hlen);
    unfold main, testParser, testPythonTranspilation; rewrite Ha;
    destruct ndebug; repeat split.
Qed.

Lemma self_check_run_witness :
  let r := main false (fun _ => 0) ["ailang"] (one_file "m.ail" spaced1) in
  files r = one_file "m.ail" spaced1
  /\ exit_status r = Aborted
  /\ cout r = EmptyString.
Proof.
  apply (self_check_run false (fun _ => 0) ["ailang"]
           (one_file "m.ail" spaced1)).
  cbn. lia.
Defined.

(** ** The three kinds of line do not interfere *)

Lemma process_line_name_only (u u' : Z) (st st' : parse_state) (l : string) :
  modelName st = modelName st' ->
  modelName (process_line u st l) = modelName (process_line u' st' l).
Proof.
  intros E. destruct (find_at_0 l "model") eqn:H.
  - rewrite !process_line_model by assumption. cbn [modelName]. now rewrite E.
  - now rewrite !process_line_name_kept.
Qed.

Lemma process_line_size_only (u u' : Z) (st st' : parse_state) (l : string) :
  inputSize st = inputSize st' ->
  inputSize (process_line u st l) = inputSize (process_line u' st' l).
Proof.
  intros E. destruct (find_at_0 l "input") eqn:H.
  - rewrite !process_line_input by assumption. cbn [inputSize]. now rewrite E.
  - now rewrite !process_line_size_kept.
Qed.

Lemma process_line_layers_only (u u' : Z) (st st' : parse_state) (l : string) :
  units_reached l = true -> layers st = layers st' ->
  layers (process_line u st l) = layers (process_line u' st' l).
Proof.
  intros R E.
  rewrite (process_line_layers u st), (process_line_layers u' st'), E.
  now rewrite (process_line_units_reached u u' parse_init l R).
Qed.

Lemma parse_from_kinds (uninit uninit' : nat -> Z) (ls : list string) :
  forall (k k' : nat) (st st' : parse_state),
    (modelName st = modelName st' ->
     modelName (parse_from uninit k st ls)
     = modelName (parse_from uninit' k' st'
                    (filter (fun l => find_at_0 l "model") ls)))
    /\ (inputSize st = inputSize st' ->
        inputSize (parse_from uninit k st ls)
        = inputSize (parse_from uninit' k' st'
                       (filter (fun l => find_at_0 l "input") ls)))
    /\ (Forall (fun l => units_reached l = true) ls ->
        layers st = layers st' ->
        layers (parse_from uninit k st ls)
        = layers (parse_from uninit' k' st'
                    (filter (fun l => find_at_0 l "layer") ls))).
Proof.
  induction ls as [|l ls IH]; intros k k' st st'; [now repeat split|].
  cbn [parse_from filter]. split; [|split].
  - intros E. destruct (find_at_0 l "model") eqn:H; cbn [parse_from].
    + apply IH. now apply process_line_name_only.
    + apply IH. now rewrite process_line_name_kept.
  - intros E. destruct (find_at_0 l "input") eqn:H; cbn [parse_from].
    + apply IH. now apply process_line_size_only.
    + apply IH. now rewrite process_line_size_kept.
  - intros F E. inversion F as [|? ? Hl F']; subst.
    destruct (find_at_0 l "layer") eqn:H; cbn [parse_from].
    + apply IH; [assumption|]. now apply process_line_layers_only.
    + apply IH; [assumption|]. now rewrite process_line_layers_kept.
Qed.

(** X14.  The three kinds of line do not interfere, so their relative order
    is free: the parsed name is the one the [model] lines alone give, the
    parsed size the one the [input] lines alone give, and, when every
    [layer] line has a third field, the parsed layers the ones the [layer]
    lines alone give. *)
Theorem kinds_of_line_independent (uninit : nat -> Z) (ls : list string) :
  modelName (parse_lines uninit ls)
    = modelName (parse_lines uninit (filter (fun l => find_at_0 l "model") ls))
  /\ inputSize (parse_lines uninit ls)
     = inputSize (parse_lines uninit (filter (fun l => find_at_0 l "input") ls))
  /\ (Forall (fun l => units_reached l = true) ls ->
      layers (parse_lines uninit ls)
      = layers (parse_lines uninit
                  (filter (fun l => find_at_0 l "layer") ls))).
Proof.
  unfold parse_lines.
  destruct (parse_from_kinds uninit uninit ls 0 0 parse_init parse_init)
    as (Hn & Hs & Hl).
  split; [now apply Hn|]. split; [now apply Hs|].
  intros F. now apply Hl.
Qed.

Lemma kinds_of_line_independent_witness :
  layers (parse_lines (fun _ => 0) (getlines spaced1))
  = layers (parse_lines (fun _ => 0)
              (filter (fun l => find_at_0 l "layer") (getlines spaced1))).
Proof.
  apply (kinds_of_line_independent (fun _ => 0) (getlines spaced1)).
  eval_lines. repeat constructor.
Defined.

(** ** Activations the emitters do not know *)

Lemma blocks_by_kind (ls ls' : list (Z * string)) :
  map fst ls = map fst ls' ->
  map (fun l => activation_kind (snd l)) ls
  = map (fun l => activation_kind (snd l)) ls' ->
  forall k cols,
    eigen_blocks k ls = eigen_blocks k ls'
    /\ python_decls k cols ls = python_decls k cols ls'
    /\ python_steps k ls = python_steps k ls'.
Proof.
  revert ls'. induction ls as [|[u a] ls IH]; intros [|[u' a'] ls'] Hu Hk;
    try discriminate; [now repeat split|].
  cbn [map fst snd] in Hu, Hk.
  injection Hu as -> Hu. injection Hk as Ha Hk. intros k cols.
  cbn [eigen_blocks python_decls python_steps]. rewrite Ha.
  destruct (IH ls' Hu Hk (S k) u') as (-> & -> & ->). now repeat split.
Qed.

(** X15.  The emitters see an activation string only through its kind: two
    models with the same unit counts whose activation strings are, layer by
    layer, both the relu literal, both the sigmoid literal or both anything
    else, get the same text from each emitter.  In particular every unknown
    activation, a differently cased one included, is emitted as no
    activation. *)
Theorem emitters_see_activation_kind (name : string) (s : Z)
    (ls ls' : list (Z * string)) :
  map fst ls = map fst ls' ->
  map (fun l => activation_kind (snd l)) ls
  = map (fun l => activation_kind (snd l)) ls' ->
  generateModelClass_text name s ls = generateModelClass_text name s ls'
  /\ pythonCode name s ls = pythonCode name s ls'.
Proof.
  intros Hu Hk.
  rewrite !generateModelClass_text_blocks, !pythonCode_blocks.
  destruct (blocks_by_kind ls ls' Hu Hk 1%nat s) as (-> & -> & ->).
  now split.
Qed.

Lemma emitters_see_activation_kind_witness :
  generateModelClass_text "M" 4 [(8, dq ++ "ReLU" ++ dq); (2, "sigmoid")]
    = generateModelClass_text "M" 4 [(8, EmptyString); (2, EmptyString)]
  /\ pythonCode "M" 4 [(8, dq ++ "ReLU" ++ dq); (2, "sigmoid")]
     = pythonCode "M" 4 [(8, EmptyString); (2, EmptyString)].
Proof.
  apply emitters_see_activation_kind; reflexivity.
Defined.

(** ** From a well-formed file to the generated file *)

Lemma no_lf_append (a b : string) : no_lf (a ++ b) = no_lf a && no_lf b.
Proof.
  induction a as [|c a IH]; [reflexivity|].
  cbn [append no_lf]. now rewrite IH, andb_assoc.
Qed.

Lemma no_space_no_lf (w : string) : no_space w = true -> no_lf w = true.
Proof.
  induction w as [|c w IH]; [reflexivity|]. cbn [no_space no_lf].
  intros H. apply andb_true_iff in H as [Hc Hw]. rewrite (IH Hw), andb_true_r.
  destruct (Ascii.eqb_spec c "010") as [->|]; [discriminate Hc | reflexivity].
Qed.

Lemma is_word_no_lf (w : string) : is_word w = true -> no_lf w = true.
Proof.
  unfold is_word. intros H. apply andb_true_iff in H as [_ H].
  now apply no_space_no_lf.
Qed.

Lemma digits_no_lf (d : Decimal.uint) : no_lf (NilEmpty.string_of_uint d) = true.
Proof. induction d; [reflexivity | exact IHd ..]. Qed.

Lemma show_int_no_lf (v : Z) : no_lf (show_int v) = true.
Proof.
  unfold show_int.
  destruct v as [|p|p]; cbn [Z.to_int NilZero.string_of_int];
    [reflexivity | |cbn [no_lf Ascii.eqb negb andb]];
    unfold NilZero.string_of_uint;
    (destruct (Pos.to_uint p) eqn:E; [reflexivity | rewrite <- E ..]);
    apply digits_no_lf.
Qed.

Lemma document_lines_no_lf (name : string) (size : Z) (ls : list (Z * string)) :
  is_word name = true ->
  Forall (fun l => in_int (fst l) = true /\ is_word (snd l) = true) ls ->
  Forall (fun l => no_lf l = true) (document_lines name size ls).
Proof.
  intros Hn F. unfold document_lines.
  constructor.
  { unfold model_line. rewrite !no_lf_append, (is_word_no_lf _ Hn).
    reflexivity. }
  constructor.
  { unfold input_line. rewrite no_lf_append, show_int_no_lf. reflexivity. }
  apply Forall_app. split; [|repeat constructor].
  induction F as [|[u a] ls [_ Ha] _ IH]; cbn [map]; constructor; [|exact IH].
  unfold layer_line. cbn [fst snd] in Ha |- *.
  rewrite !no_lf_append, show_int_no_lf, (is_word_no_lf _ Ha). reflexivity.
Qed.

Lemma no_nul_append (a b : string) : no_nul (a ++ b) = no_nul a && no_nul b.
Proof.
  induction a as [|c a IH]; [reflexivity|].
  cbn [append no_nul]. now rewrite IH, andb_assoc.
Qed.

Lemma c_str_no_nul (s : string) : no_nul s = true -> c_str s = s.
Proof.
  induction s as [|c s IH]; [reflexivity|]. cbn [no_nul c_str].
  intros H. apply andb_true_iff in H as [Hc Hs].
  apply negb_true_iff in Hc. now rewrite Hc, (IH Hs).
Qed.

(** X16.  From file to file: when the input file holds a document in the
    spaced shape, every line closed by LF, with a word without NUL for name,
    a positive size in the range of [int], at least one layer, unit counts
    in the range of [int] and words for activations, and when the file
    named after the model can be opened for writing, the run ends with
    status 0 and that file holds the Eigen text of exactly these layers. *)
Theorem well_formed_file_translated (ndebug : bool) (uninit : nat -> Z)
    (prog path name : string) (size : Z) (ls : list (Z * string))
    (fs : filesystem) :
  fs path = Some (join_lines (document_lines name size ls)) ->
  is_word name = true -> no_nul name = true ->
  creatable fs (name ++ ".cpp") = true ->
  0 < size -> in_int size = true -> ls <> [] ->
  Forall (fun l => in_int (fst l) = true /\ is_word (snd l) = true) ls ->
  let r := main ndebug uninit [prog; path] fs in
  exit_status r = Exit 0
  /\ files r (name ++ ".cpp")
     = Some (eigen_prologue name ++ eigen_blocks 1 ls ++ eigen_epilogue).
Proof.
  intros Hf Hn Hnul Hc Hpos Hin Hls F.
  assert (E : parse uninit (join_lines (document_lines name size ls))
              = mkParse name size ls).
  { unfold parse.
    rewrite <- (append_nil_r (join_lines _)).
    rewrite getlines_join
      by (try reflexivity; now apply document_lines_no_lf).
    cbn [is_empty]. rewrite app_nil_r.
    unfold parse_lines, document_lines. cbn [parse_from].
    rewrite process_model_line by assumption. rewrite process_input_line.
    rewrite parse_from_app, parse_layer_lines by assumption.
    cbn [parse_from modelName inputSize layers app].
    now rewrite (saturate_in_int size Hin). }
  assert (Hv : valid (parse uninit (join_lines (document_lines name size ls)))
               = true).
  { rewrite E. apply valid_iff. cbn [modelName inputSize layers].
    repeat split; try assumption.
    unfold is_word in Hn. destruct name; [discriminate | discriminate]. }
  assert (Hp : c_str (name ++ ".cpp") = name ++ ".cpp").
  { apply c_str_no_nul. rewrite no_nul_append, Hnul. reflexivity. }
  cbv zeta. rewrite (main_accepts _ _ _ _ _ _ Hf Hv), E.
  cbn [exit_status files modelName inputSize layers].
  split; [reflexivity|].
  rewrite generateModelClass_opened by (now rewrite Hp).
  rewrite Hp. unfold write_file. cbn [content].
  now rewrite String.eqb_refl, generateModelClass_text_blocks.
Qed.

Lemma well_formed_file_translated_witness :
  let r := main false (fun _ => 0) ["ailang"; "net.ail"]
             (one_file "net.ail"
                (join_lines (document_lines "Net" 3 [(5, relu_lit)]))) in
  exit_status r = Exit 0
  /\ files r ("Net" ++ ".cpp")
     = Some (eigen_prologue "Net" ++ eigen_blocks 1 [(5, relu_lit)]
             ++ eigen_epilogue).
Proof.
  apply (well_formed_file_translated false (fun _ => 0) "ailang" "net.ail"
           "Net" 3 [(5, relu_lit)]).
  - reflexivity.
  - reflexivity.
  - reflexivity.
  - reflexivity.
  - lia.
  - reflexivity.
  - discriminate.
  - repeat constructor.
Defined.
